(** * Special commands of gonb (internal/specialcmd/specialcmd.go)

    A shallow embedding of the command preprocessor of the gonb kernel:
    [splitCmd], [joinLine], [parseCmdBody], [execInternal], [execWriteFile],
    [execShell] and [Parse].

    Go strings are byte strings: they are modelled as [list ascii] (an
    [ascii] is one 8-bit byte), indexed as Go indexes them. Go's runtime
    panics (out-of-range index, failed type assertion) are modelled as an
    explicit [Panic] outcome. *)

From Stdlib Require Import Ascii String DecimalString.
From stdpp Require Import base list gmap strings.

(** ** Bytes and Go strings *)

Abbreviation gstr := (list ascii).

(** Go string literal. *)
Definition s2l (s : string) : gstr := list_ascii_of_string s.

Definition byte_eqb (a b : ascii) : bool := Ascii.eqb a b.

Definition c_space : ascii := " ".
Definition c_tab : ascii := ascii_of_nat 9.
Definition c_nl : ascii := ascii_of_nat 10.
Definition c_quote : ascii := ascii_of_nat 34.
Definition c_backslash : ascii := "\".
Definition c_percent : ascii := "%".
Definition c_bang : ascii := "!".
Definition c_star : ascii := "*".
Definition c_eq : ascii := "=".
Definition c_nul : ascii := ascii_of_nat 0.

(** [fmt.Sprintf("%s%c", part, c)] with [c] a byte: [%c] prints the Unicode
    code point [rune(c)], i.e. the byte itself below 0x80 and the two-byte
    UTF-8 encoding of U+0080..U+00FF otherwise. *)
Definition sprintf_c (c : ascii) : gstr :=
  let n := N_of_ascii c in
  if (n <? 128)%N then [c]
  else [ascii_of_N (N.lor 192 (N.shiftr n 6)); ascii_of_N (N.lor 128 (N.land n 63))].

(** ** splitCmd *)

(** The loop of [splitCmd]; [partStarted], [inQuotes], [part] and [parts]
    are the local variables, the remaining bytes of [cmd] the loop index. *)
Fixpoint split_loop (cmd : gstr) (partStarted inQuotes : bool)
    (part : gstr) (parts : list gstr) : list gstr :=
  match cmd with
  | [] => if partStarted then parts ++ [part] else parts
  | c :: rest =>
      let isSpace := byte_eqb c c_space || byte_eqb c c_tab || byte_eqb c c_nl in
      if negb inQuotes && isSpace then
        split_loop rest false inQuotes [] (if partStarted then parts ++ [part] else parts)
      else if byte_eqb c c_quote then
        if inQuotes then split_loop rest partStarted false part parts
        else split_loop rest true true part parts
      else if byte_eqb c c_backslash && inQuotes then
        match rest with
        | [] => (* break *) if partStarted then parts ++ [part] else parts
        | c2 :: rest2 =>
            let c3 := if byte_eqb c2 "n" then c_nl
                      else if byte_eqb c2 "t" then c_tab else c2 in
            split_loop rest2 true inQuotes (part ++ sprintf_c c3) parts
        end
      else split_loop rest true inQuotes (part ++ sprintf_c c) parts
  end.

Definition splitCmd (cmd : gstr) : list gstr := split_loop cmd false false [] [].

(** ** joinLine *)

(** [cmdStr[len(cmdStr)-1]]: panics ([None]) on the empty string. *)
Definition last_byte (s : gstr) : option ascii := last s.

(** The loop of [joinLine] over the lines [rest] = [lines[fromLine:]]. *)
Fixpoint join_loop (rest : list gstr) (fromLine : nat) (cmdStr : gstr)
    (usedLines : gset nat) : option (gstr * gset nat) :=
  match rest with
  | [] => Some (cmdStr, usedLines)
  | l :: rest' =>
      let cmdStr1 := cmdStr ++ l in
      let used1 := {[fromLine]} ∪ usedLines in
      match last_byte cmdStr1 with
      | None => None
      | Some c =>
          if negb (byte_eqb c c_backslash) then Some (cmdStr1, used1)
          else join_loop rest' (S fromLine)
                 (take (length cmdStr1 - 1) cmdStr1 ++ [c_space]) used1
      end
  end.

(** [None] is a runtime panic; otherwise the joined command and the
    updated [usedLines] (a Go map, mutated in place, returned here). *)
Definition joinLine (lines : list gstr) (fromLine : nat) (usedLines : gset nat)
    : option (gstr * gset nat) :=
  join_loop (drop fromLine lines) fromLine [] usedLines.

(** ** parseCmdBody *)

Definition starts_with_sigil (l : gstr) : bool :=
  match l with
  | c :: _ => byte_eqb c c_percent || byte_eqb c c_bang
  | [] => false
  end.

Fixpoint body_loop (rest : list gstr) (fromLine : nat) (cmdBody : gstr)
    (usedLines : gset nat) : gstr * gset nat :=
  match rest with
  | [] => (cmdBody, usedLines)
  | l :: rest' =>
      if starts_with_sigil l then (cmdBody, usedLines)
      else body_loop rest' (S fromLine) (cmdBody ++ l ++ [c_nl]) ({[fromLine]} ∪ usedLines)
  end.

Definition parseCmdBody (lines : list gstr) (fromLine : nat) (usedLines : gset nat)
    : gstr * gset nat :=
  body_loop (drop (S fromLine) lines) (S fromLine) [] ({[fromLine]} ∪ usedLines).

(** ** The environment of the commands *)

(** Errors are Go [error] values, represented by their message. *)
Abbreviation err := gstr.

Inductive stream := StreamStdout | StreamStderr.

(** How a shell command is run by [jpyexec]: plain, [WithInputs(ms)] or
    [WithPassword(ms)]. *)
Inductive inputMode := NoInput | WithInputs (ms : nat) | WithPassword (ms : nat).

(** What the kernel is asked to do, in order. *)
Inductive event :=
  | EvStream (s : stream) (text : gstr)        (* kernel.PublishWriteStream *)
  | EvHtml (text : gstr)                       (* kernel.PublishHtml *)
  | EvMarkdown (text : gstr)                   (* kernel.PublishMarkdown *)
  | EvShell (cmd dir : gstr) (mode : inputMode) (* jpyexec ... Exec() *)
  | EvExt (name : gstr) (args : list gstr).    (* other collaborator call *)

(** [cellStatus]: temporary status of the execution of the current cell. *)
Record cellStatus := { withInputs : bool; withPassword : bool }.

Definition emptyStatus : cellStatus := {| withInputs := false; withPassword := false |}.

(** The kernel message: [content["allow_stdin"]], absent (or not a bool)
    as [None]. *)
Record Message := { allow_stdin : option bool }.

Section Gonb.

(** State of the collaborators outside this package (goexec definitions,
    gopls tracking, the Jupyter comms, the working directory, ...). *)
Variable ExtState : Type.

(** A call to such a collaborator: its name, its arguments; it returns a
    string result and an error. *)
Variable ext : gstr -> list gstr -> ExtState -> ExtState * (gstr * option err).

(** [strconv.Quote], as used by the [%q] verb of [fmt]. *)
Variable go_quote : gstr -> gstr.

(** The embedded [help.md] and [protocol.GONB_DIR_ENV]. *)
Variable HelpMessage : gstr.
Variable GONB_DIR_ENV : gstr.

(** The fields of [goexec.State] that this package reads or writes, the
    process environment, the file system and the kernel. *)
Record World := {
  w_args : list gstr;           (* goExec.Args *)
  w_cellIsTest : bool;          (* goExec.CellIsTest *)
  w_cellIsWasm : bool;          (* goExec.CellIsWasm *)
  w_goBuildFlags : list gstr;   (* goExec.GoBuildFlags *)
  w_autoGet : bool;             (* goExec.AutoGet *)
  w_uniqueID : gstr;            (* goExec.UniqueID *)
  w_tempDir : gstr;             (* goExec.TempDir *)
  w_env : gmap gstr gstr;       (* process environment *)
  w_files : gmap gstr gstr;     (* file contents *)
  w_unwritable : gset gstr;     (* paths that os.OpenFile refuses *)
  w_log : list event;           (* requests to the kernel, oldest first *)
  w_pubFail : bool;             (* the kernel transport rejects publishing *)
  w_hbReply : option nat;       (* ms until a heartbeat pong arrives, if ever *)
  w_hbErr : option err;         (* transport error of the heartbeat probe *)
  w_clock : nat;                (* ms elapsed *)
  w_ext : ExtState
}.

Inductive outcome (A : Type) := Panic | Ok (a : A) (w : World).
Arguments Panic {A}.
Arguments Ok {A} a w.

(** State monad with Go panics. *)
Definition M (A : Type) := World -> outcome A.

Definition ret {A} (a : A) : M A := fun w => Ok a w.
Definition panic {A} : M A := fun _ => Panic.
Definition bind {A B} (m : M A) (k : A -> M B) : M B :=
  fun w => match m w with Panic => Panic | Ok a w' => k a w' end.

Local Notation "x <- m ;; k" := (bind m (fun x => k))
  (at level 100, m at next level, right associativity).

Definition modify (f : World -> World) : M unit := fun w => Ok tt (f w).
Definition gets {A} (f : World -> A) : M A := fun w => Ok (f w) w.

Definition set_log (l : list event) (w : World) : World :=
  {| w_args := w_args w; w_cellIsTest := w_cellIsTest w; w_cellIsWasm := w_cellIsWasm w;
     w_goBuildFlags := w_goBuildFlags w; w_autoGet := w_autoGet w;
     w_uniqueID := w_uniqueID w; w_tempDir := w_tempDir w; w_env := w_env w;
     w_files := w_files w; w_unwritable := w_unwritable w; w_log := l;
     w_pubFail := w_pubFail w; w_hbReply := w_hbReply w; w_hbErr := w_hbErr w;
     w_clock := w_clock w; w_ext := w_ext w |}.

Definition set_goexec (args : list gstr) (isTest isWasm : bool) (flags : list gstr)
    (autoGet : bool) (w : World) : World :=
  {| w_args := args; w_cellIsTest := isTest; w_cellIsWasm := isWasm;
     w_goBuildFlags := flags; w_autoGet := autoGet;
     w_uniqueID := w_uniqueID w; w_tempDir := w_tempDir w; w_env := w_env w;
     w_files := w_files w; w_unwritable := w_unwritable w; w_log := w_log w;
     w_pubFail := w_pubFail w; w_hbReply := w_hbReply w; w_hbErr := w_hbErr w;
     w_clock := w_clock w; w_ext := w_ext w |}.

Definition set_os (env : gmap gstr gstr) (files : gmap gstr gstr) (w : World) : World :=
  {| w_args := w_args w; w_cellIsTest := w_cellIsTest w; w_cellIsWasm := w_cellIsWasm w;
     w_goBuildFlags := w_goBuildFlags w; w_autoGet := w_autoGet w;
     w_uniqueID := w_uniqueID w; w_tempDir := w_tempDir w; w_env := env;
     w_files := files; w_unwritable := w_unwritable w; w_log := w_log w;
     w_pubFail := w_pubFail w; w_hbReply := w_hbReply w; w_hbErr := w_hbErr w;
     w_clock := w_clock w; w_ext := w_ext w |}.

Definition set_ext (c : nat) (e : ExtState) (w : World) : World :=
  {| w_args := w_args w; w_cellIsTest := w_cellIsTest w; w_cellIsWasm := w_cellIsWasm w;
     w_goBuildFlags := w_goBuildFlags w; w_autoGet := w_autoGet w;
     w_uniqueID := w_uniqueID w; w_tempDir := w_tempDir w; w_env := w_env w;
     w_files := w_files w; w_unwritable := w_unwritable w; w_log := w_log w;
     w_pubFail := w_pubFail w; w_hbReply := w_hbReply w; w_hbErr := w_hbErr w;
     w_clock := c; w_ext := e |}.

Definition emit (e : event) : M unit := modify (fun w => set_log (w_log w ++ [e]) w).

(** Publishing to the kernel: the request is made; it fails when the
    transport does. *)
Definition err_publish : err := s2l "failed to publish".
Definition publish (e : event) : M (option err) :=
  _ <- emit e ;; gets (fun w => if w_pubFail w then Some err_publish else None).

Definition PublishWriteStream (s : stream) (text : gstr) : M (option err) :=
  publish (EvStream s text).
Definition PublishHtml (text : gstr) : M (option err) := publish (EvHtml text).
Definition PublishMarkdown (text : gstr) : M (option err) := publish (EvMarkdown text).

(** A call to a collaborator, recorded in the log. *)
Definition call (name : gstr) (args : list gstr) : M (gstr * option err) :=
  _ <- emit (EvExt name args) ;;
  fun w => let '(e', r) := ext name args (w_ext w) in Ok r (set_ext (w_clock w) e' w).

(** [fmt]'s [%d] on a non-negative int. *)
Definition fmt_d (n : nat) : gstr := s2l (NilEmpty.string_of_uint (Nat.to_uint n)).

(** [fmt]'s [%q] on a [[]string]: ["[" ++ quoted elements joined by " " ++ "]"]. *)
Fixpoint join_space (l : list gstr) : gstr :=
  match l with
  | [] => []
  | [x] => x
  | x :: l' => x ++ [c_space] ++ join_space l'
  end.

Definition fmt_q_list (l : list gstr) : gstr :=
  s2l "[" ++ join_space (map go_quote l) ++ s2l "]".

Definition quoted (s : gstr) : gstr := [c_quote] ++ s ++ [c_quote].

(** [errors.Wrapf] / [errors.WithMessagef]: the message, then the cause. *)
Definition wrap (msg : gstr) (e : err) : err := msg ++ s2l ": " ++ e.

(** [strings.Index(s, sep)] for a one-byte separator: [None] is -1. *)
Fixpoint index_byte (s : gstr) (c : ascii) : option nat :=
  match s with
  | [] => None
  | c' :: s' => if byte_eqb c' c then Some 0 else S <$> index_byte s' c
  end.

(** [os.Setenv] (through [syscall.Setenv] on Unix): EINVAL for an empty
    key, a key holding '=' or NUL, or a value holding NUL. *)
(** [os.Setenv] wraps the errno in [NewSyscallError("setenv", ...)]. *)
Definition err_einval : err := s2l "setenv: invalid argument".
Definition Setenv (key value : gstr) : M (option err) :=
  if bool_decide (key = []) || existsb (fun c => byte_eqb c c_eq || byte_eqb c c_nul) key
     || existsb (fun c => byte_eqb c c_nul) value
  then ret (Some err_einval)
  else fun w => Ok None (set_os (<[key := value]> (w_env w)) (w_files w) w).

Definition str_eqb (a b : gstr) : bool := bool_decide (a = b).

(** ** execInternal *)

Definition msg_env_usage (n : nat) : err :=
  s2l "`%env <VAR_NAME> <value>` (or `%env <VAR_NAME>=<value>`): it takes 2 arguments, the variable name and it's content, but "
  ++ fmt_d n ++ s2l " were given".

(** [case "env"]. *)
Definition execInternal_env (parts : list gstr) : M (option err) :=
  let parts :=
    match parts with
    | [p0; p1] =>
        match index_byte p1 c_eq with
        | Some eqPos => if bool_decide (1 < eqPos)
                        then [p0; take eqPos p1; drop (S eqPos) p1] else parts
        | None => parts
        end
    | _ => parts
    end in
  match parts with
  | [_; p1; p2] =>
      e <- Setenv p1 p2 ;;
      match e with
      | Some e => ret (Some (wrap (s2l "`%env " ++ go_quote p1 ++ [c_space] ++ go_quote p2 ++ s2l "` failed") e))
      | None =>
          _ <- PublishWriteStream StreamStdout (s2l "Set: " ++ p1 ++ [c_eq] ++ go_quote p2 ++ [c_nl]) ;;
          ret None
      end
  | _ => ret (Some (msg_env_usage (length parts - 1)))
  end.

(** [case "cd"]. *)
Definition execInternal_cd (parts : list gstr) : M (option err) :=
  match parts with
  | [_] =>
      pwd <- call (s2l "Getwd") [] ;;
      _ <- PublishWriteStream StreamStdout (s2l "Current directory: " ++ go_quote pwd.1 ++ [c_nl]) ;;
      ret None
  | [_; p1] =>
      r <- call (s2l "Chdir") [p1] ;;
      match r.2 with
      | Some e => ret (Some (wrap (s2l "`%cd " ++ go_quote p1 ++ s2l "` failed") e))
      | None =>
          pwd <- call (s2l "Getwd") [] ;;
          _ <- PublishWriteStream StreamStdout (s2l "Changed directory to " ++ go_quote pwd.1 ++ [c_nl]) ;;
          _ <- Setenv GONB_DIR_ENV pwd.1 ;;
          ret None
      end
  | _ => ret (Some (s2l "`%cd [<directory>]`: it takes none or one argument, but "
                    ++ fmt_d (length parts - 1) ++ s2l " were given"))
  end.

(** [goExec.Comms.SendHeartbeatAndWait(msg, timeout)] lives in the goexec
    package, not in this one.
    Modelled from the spec: a liveness probe with a bounded timeout; a pong
    within the timeout gives [true], none within it gives [false] after
    waiting exactly the timeout (never longer), and a transport error of
    the probe is returned as such. *)
Definition SendHeartbeatAndWait (timeout_ms : nat) : M (bool * option err) :=
  fun w =>
    match w_hbErr w with
    | Some e => Ok (false, Some e) w
    | None =>
        match w_hbReply w with
        | Some d => if bool_decide (d <= timeout_ms)
                    then Ok (true, None) (set_ext (w_clock w + d) (w_ext w) w)
                    else Ok (false, None) (set_ext (w_clock w + timeout_ms) (w_ext w) w)
        | None => Ok (false, None) (set_ext (w_clock w + timeout_ms) (w_ext w) w)
        end
    end.

Definition msg_hb_pong : gstr := s2l "Heartbeat pong received back.".
Definition msg_hb_timeout : gstr :=
  s2l "Timed-out, no heartbeat pong received. Try installing front-end websockets with %widgets ?".

(** [case "widgets_hb"]: [1*time.Second]. *)
Definition execInternal_widgets_hb : M (option err) :=
  r <- SendHeartbeatAndWait 1000 ;;
  match r with
  | (_, Some e) => ret (Some e)
  | (true, None) => PublishHtml msg_hb_pong
  | (false, None) => PublishHtml msg_hb_timeout
  end.

Definition msg_unknown (name : gstr) : gstr :=
  [c_quote] ++ [c_percent] ++ name ++ [c_quote] ++ s2l " unknown or not implemented yet.".

Definition known_commands : list gstr :=
  map s2l ["%"; "main"; "args"; "test"; "wasm"; "widgets"; "widgets_hb"; "env"; "cd";
           "goflags"; "autoget"; "noautoget"; "help"; "reset"; "ls"; "list"; "rm";
           "remove"; "with_inputs"; "with_password"; "track"; "untrack"; "goworkfix"].

Definition msg_reset_usage : err :=
  s2l "%reset only take one optional parameter " ++ quoted (s2l "go.mod").

Definition msg_no_input (name : gstr) : err :=
  [c_percent] ++ name ++ s2l " not available in this notebook, it doesn't allow input prompting".

(** [case "with_inputs"] and [case "with_password"]:
    [content["allow_stdin"].(bool)] panics when absent. *)
Definition allowInput (msg : Message) : M bool :=
  match allow_stdin msg with Some b => ret b | None => panic end.

Definition execInternal (msg : Message) (cmdStr : gstr) (status : cellStatus)
    : M (cellStatus * option err) :=
  let parts := splitCmd cmdStr in
  let done (e : option err) : M (cellStatus * option err) := ret (status, e) in
  match parts with
  | [] => panic  (* parts[0] *)
  | p0 :: rest =>
      if existsb (str_eqb p0) (map s2l ["%"; "main"; "args"; "test"]) then
        _ <- modify (fun w => set_goexec rest (w_cellIsTest w || str_eqb p0 (s2l "test"))
                               (w_cellIsWasm w) (w_goBuildFlags w) (w_autoGet w) w) ;;
        done None
      else if str_eqb p0 (s2l "wasm") then
        if bool_decide (1 < length parts) then
          done (Some (s2l "`%wasm` takes no extra parameters."))
        else
          _ <- modify (fun w => set_goexec (w_args w) (w_cellIsTest w) true
                                 (w_goBuildFlags w) (w_autoGet w) w) ;;
          r <- call (s2l "MakeWasmSubdir") [] ;;
          match r.2 with
          | Some e => done (Some (wrap (s2l "failed to prepare `%wasm`") e))
          | None => _ <- call (s2l "UniqueId") [] ;; done None
          end
      else if str_eqb p0 (s2l "widgets") then
        r <- call (s2l "InstallWebSocket") [] ;; done r.2
      else if str_eqb p0 (s2l "widgets_hb") then
        e <- execInternal_widgets_hb ;; done e
      else if str_eqb p0 (s2l "env") then
        e <- execInternal_env parts ;; done e
      else if str_eqb p0 (s2l "cd") then
        e <- execInternal_cd parts ;; done e
      else if str_eqb p0 (s2l "goflags") then
        _ <- (match rest with
              | [] => ret tt
              | _ => modify (fun w => set_goexec (w_args w) (w_cellIsTest w) (w_cellIsWasm w)
                                       (filter (fun s => s <> []) rest) (w_autoGet w) w)
              end) ;;
        flags <- gets w_goBuildFlags ;;
        _ <- PublishWriteStream StreamStdout (s2l "%goflags=" ++ fmt_q_list flags ++ [c_nl]) ;;
        done None
      else if str_eqb p0 (s2l "autoget") then
        _ <- modify (fun w => set_goexec (w_args w) (w_cellIsTest w) (w_cellIsWasm w)
                               (w_goBuildFlags w) true w) ;; done None
      else if str_eqb p0 (s2l "noautoget") then
        _ <- modify (fun w => set_goexec (w_args w) (w_cellIsTest w) (w_cellIsWasm w)
                               (w_goBuildFlags w) false w) ;; done None
      else if str_eqb p0 (s2l "help") then
        _ <- PublishMarkdown HelpMessage ;; done None
      else if str_eqb p0 (s2l "reset") then
        match rest with
        | [] => _ <- call (s2l "resetDefinitions") [] ;;
                r <- call (s2l "GoModInit") [] ;; done r.2
        | [p1] => if str_eqb p1 (s2l "go.mod")
                  then r <- call (s2l "GoModInit") [] ;; done r.2
                  else done (Some msg_reset_usage)
        | _ => done (Some msg_reset_usage)
        end
      else if str_eqb p0 (s2l "ls") || str_eqb p0 (s2l "list") then
        _ <- call (s2l "listDefinitions") [] ;; done None
      else if str_eqb p0 (s2l "rm") || str_eqb p0 (s2l "remove") then
        _ <- call (s2l "removeDefinitions") rest ;; done None
      else if str_eqb p0 (s2l "with_inputs") then
        allow <- allowInput msg ;;
        if negb allow && (withInputs status || withPassword status)
        then done (Some (msg_no_input (s2l "with_inputs")))
        else ret ({| withInputs := true; withPassword := withPassword status |}, None)
      else if str_eqb p0 (s2l "with_password") then
        allow <- allowInput msg ;;
        if negb allow && (withInputs status || withPassword status)
        then done (Some (msg_no_input (s2l "with_password")))
        else ret ({| withInputs := withInputs status; withPassword := true |}, None)
      else if str_eqb p0 (s2l "track") then
        _ <- call (s2l "execTrack") rest ;; done None
      else if str_eqb p0 (s2l "untrack") then
        _ <- call (s2l "execUntrack") rest ;; done None
      else if str_eqb p0 (s2l "goworkfix") then
        r <- call (s2l "GoWorkFix") [] ;; done r.2
      else
        _ <- PublishWriteStream StreamStderr (msg_unknown p0) ;; done None
  end.

(** ** execWriteFile *)

(** [FlagsParse(args, {"append"}, {"a": "append"})] lives in the common
    package, not in this one.
    Modelled from the spec: the file-writing directive takes an optional
    append flag ([-a], [--a], [-append] or [--append]) and a destination
    name, its first positional argument ([-pos1]); other dashed arguments
    are ignored. Returns whether [append] is set and [-pos1]. *)
Fixpoint FlagsParse (args : list gstr) : bool * option gstr :=
  match args with
  | [] => (false, None)
  | a :: args' =>
      let '(app, pos1) := FlagsParse args' in
      if existsb (str_eqb a) (map s2l ["-a"; "--a"; "-append"; "--append"]) then (true, pos1)
      else match a with
           | c :: _ => if byte_eqb c "-" then (app, pos1) else (app, Some a)
           | [] => (app, Some a)
           end
  end.

Definition err_open (f : gstr) : err := s2l "open " ++ f ++ s2l ": permission denied".

Definition execWriteFile (args : list gstr) (cmdBody : gstr) : M (option err) :=
  let '(appendMode, pos1) := FlagsParse args in
  fun w =>
    let filename := match pos1 with Some f => f | None => w_uniqueID w ++ s2l ".out" end in
    if bool_decide (filename ∈ w_unwritable w) then Ok (Some (err_open filename)) w
    else
      (* os.O_RDWR | os.O_CREATE, then os.O_APPEND or os.O_TRUNC *)
      let old := if appendMode then default [] (w_files w !! filename) else [] in
      let w' := set_os (w_env w) (<[filename := old ++ cmdBody]> (w_files w)) w in
      PublishWriteStream StreamStdout (s2l "write to " ++ filename ++ s2l " success" ++ [c_nl]) w'.

(** ** execShell *)

Definition MillisecondsWaitForInput : nat := 200.

(** [jpyexec.New(msg, "/bin/bash", "-c", cmdStr)...InDir(execDir)...Exec()]. *)
Definition runShell (cmdStr execDir : gstr) (mode : inputMode) : M (option err) :=
  _ <- emit (EvShell cmdStr execDir mode) ;;
  fun w => let '(e', r) := ext (s2l "jpyexec") [cmdStr; execDir] (w_ext w) in
           Ok r.2 (set_ext (w_clock w) e' w).

Definition execShell (cmdStr : gstr) (status : cellStatus) : M (cellStatus * option err) :=
  match cmdStr with
  | [] => panic  (* cmdStr[0] *)
  | c :: rest =>
      tempDir <- gets w_tempDir ;;
      let '(cmdStr, execDir) := if byte_eqb c c_star then (rest, tempDir) else (cmdStr, []) in
      if withInputs status then
        e <- runShell cmdStr execDir (WithInputs MillisecondsWaitForInput) ;; ret (emptyStatus, e)
      else if withPassword status then
        e <- runShell cmdStr execDir (WithPassword MillisecondsWaitForInput) ;; ret (emptyStatus, e)
      else
        e <- runShell cmdStr execDir NoInput ;; ret (status, e)
  end.

(** ** Parse *)

(** [for cmdStr[0] == ' ' { cmdStr = cmdStr[1:] }]: reading [cmdStr[0]]
    of the empty string panics. *)
Fixpoint skip_spaces (s : gstr) : option gstr :=
  match s with
  | [] => None
  | c :: s' => if byte_eqb c c_space then skip_spaces s' else Some s
  end.

Definition is_cmd_line (line : gstr) : bool :=
  bool_decide (1 < length line) && starts_with_sigil line.

(** The [for lineNum] loop of [Parse], [fuel] = [len(codeLines) - lineNum].
    [result] is the named result [err] of [Parse]: every command that runs
    assigns it, and the final bare [return] returns it. Returns the final
    [usedLines] and [err]. *)
Fixpoint parse_loop (fuel : nat) (msg : Message) (execute : bool) (codeLines : list gstr)
    (lineNum : nat) (status : cellStatus) (result : option err) (usedLines : gset nat)
    : M (gset nat * option err) :=
  match fuel with
  | O => ret (usedLines, result)
  | S fuel' =>
      let continue := parse_loop fuel' msg execute codeLines (S lineNum) in
      if bool_decide (lineNum ∈ usedLines) then continue status result usedLines
      else
        let line := default [] (codeLines !! lineNum) in
        if is_cmd_line line then
          match joinLine codeLines lineNum usedLines with
          | None => panic
          | Some (cmdStr, used1) =>
              match cmdStr with
              | [] => panic
              | cmdType :: cmdStr =>
                  match skip_spaces cmdStr with
                  | None => panic
                  | Some [] => continue status result used1  (* Skip empty commands. *)
                  | Some cmdStr =>
                      if execute then
                        if byte_eqb cmdType c_percent then
                          match splitCmd cmdStr with
                          | p0 :: args =>
                              if str_eqb p0 (s2l "writefile") then
                                let '(cmdBody, used2) := parseCmdBody codeLines lineNum used1 in
                                e <- execWriteFile args cmdBody ;;
                                match e with
                                | Some _ => ret (used2, e)
                                | None => continue status None used2
                                end
                              else
                                r <- execInternal msg cmdStr status ;;
                                match r.2 with
                                | Some _ => ret (used1, r.2)
                                | None => continue r.1 None used1
                                end
                          | [] =>
                              r <- execInternal msg cmdStr status ;;
                              match r.2 with
                              | Some _ => ret (used1, r.2)
                              | None => continue r.1 None used1
                              end
                          end
                        else if byte_eqb cmdType c_bang then
                          r <- execShell cmdStr status ;;
                          match r.2 with
                          | Some _ => ret (used1, r.2)
                          | None =>
                              (* [err = goExec.AutoTrack()]: only logged, but kept in [err]. *)
                              t <- call (s2l "AutoTrack") [] ;;
                              continue r.1 t.2 used1
                          end
                        else continue status result used1
                      else continue status result used1
                  end
              end
          end
        else continue status result usedLines
  end.

Definition Parse (msg : Message) (execute : bool) (codeLines : list gstr)
    (usedLines : gset nat) : M (gset nat * option err) :=
  parse_loop (length codeLines) msg execute codeLines 0 emptyStatus None usedLines.


(** ** Readings of the spec, compared with the code below *)

Definition ends_with_backslash (l : gstr) : bool :=
  match last l with Some c => byte_eqb c c_backslash | None => false end.

(** Spec: "a trailing [\] at end of line joins the next line with one
    space". The joined command and the number of lines it spans. *)
Fixpoint join_spec (ls : list gstr) : gstr * nat :=
  match ls with
  | [] => ([], 0)
  | l :: r =>
      if ends_with_backslash l
      then let '(s, n) := join_spec r in (removelast l ++ [c_space] ++ s, S n)
      else (l, 1)
  end.


(** The input mode the next shell execution gets from the flags. *)
Definition select_mode (st : cellStatus) : inputMode :=
  if withInputs st then WithInputs MillisecondsWaitForInput
  else if withPassword st then WithPassword MillisecondsWaitForInput
  else NoInput.

(** The separators of [splitCmd]. *)
Definition is_ws (c : ascii) : bool :=
  byte_eqb c c_space || byte_eqb c c_tab || byte_eqb c c_nl.

(** [strings.Fields] for the separators of [splitCmd]: the maximal runs of
    bytes that are not separators, in order. *)
Fixpoint split_ws (s : gstr) : list gstr :=
  match s with
  | [] => [[]]
  | c :: s' =>
      if is_ws c then [] :: split_ws s'
      else match split_ws s' with
           | w :: ws => (c :: w) :: ws
           | [] => [[c]]
           end
  end.

Definition fields (s : gstr) : list gstr := filter (fun w => w <> []) (split_ws s).

(** The used-line sets: [usedLines] only grows, and only with indices of
    lines from [from] on. *)
Definition used_grows (lines : list gstr) (from : nat) (used used' : gset nat) : Prop :=
  used ⊆ used' /\ forall i, i ∈ used' -> i ∈ used \/ (from <= i /\ i < length lines).

(** ** Proofs *)

Local Ltac clear_world := clear GONB_DIR_ENV HelpMessage go_quote ext ExtState.

Local Ltac byte_cases :=
  repeat match goal with
  | |- context [byte_eqb ?a ?b] => let E := fresh "E" in destruct (byte_eqb a b) eqn:E
  end.

Lemma byte_eqb_spec a b : byte_eqb a b = true <-> a = b.
Proof using. clear_world. unfold byte_eqb. apply Ascii.eqb_eq. Qed.

Lemma take_removelast (l : gstr) : take (length l - 1) l = removelast l.
Proof using. clear_world. by rewrite removelast_firstn_len, Nat.sub_1_r. Qed.

(** The loop of [joinLine] once the accumulated command is non-empty and
    does not end with a backslash. *)
Lemma join_loop_spec rest i acc used :
  acc <> [] -> ends_with_backslash acc = false ->
  join_loop rest i acc used =
    Some (acc ++ (join_spec rest).1, set_seq i (join_spec rest).2 ∪ used).
Proof using. clear_world. revert i acc used.
  induction rest as [|l rest IH]; intros i acc used Hne Hend.
  - cbn [join_loop join_spec fst snd set_seq]. rewrite app_nil_r.
    f_equal. f_equal. set_solver.
  - cbn [join_loop join_spec]. unfold last_byte. rewrite last_app.
    destruct (last l) as [c0|] eqn:Elast.
    + assert (Hl : l <> []) by (intros ->; done).
      assert (Hbl : ends_with_backslash l = byte_eqb c0 c_backslash)
        by (unfold ends_with_backslash; by rewrite Elast).
      rewrite Hbl.
      destruct (byte_eqb c0 c_backslash) eqn:Eb; cbn [negb].
      * destruct (join_spec rest) as [s n] eqn:Ej. cbn [fst snd] in *.
        rewrite take_removelast, removelast_app by done.
        rewrite IH.
        -- f_equal. f_equal.
           ++ by rewrite <- !app_assoc.
           ++ cbn [set_seq]. set_solver.
        -- intros Hn. apply app_eq_nil in Hn as [Hn _].
           apply app_eq_nil in Hn as [-> _]. done.
        -- unfold ends_with_backslash. rewrite last_snoc. done.
      * cbn [fst snd set_seq]. f_equal. f_equal. set_solver.
    + apply last_None in Elast as ->. cbn [fst snd set_seq].
      unfold ends_with_backslash in Hend.
      destruct (last acc) as [c|] eqn:Ea; [|by apply last_None in Ea].
      rewrite Hend. cbn [negb]. f_equal. f_equal. set_solver.
Qed.

(** C1: [splitCmd] on the directive line [%args --text "hello world"] gives
    exactly the three parts [%args], [--text] and [hello world]: the quoted
    substring is one part with its space, without the quote characters. *)
Theorem splitCmd_args_hello_world :
  splitCmd (s2l "%args --text " ++ quoted (s2l "hello world"))
  = [s2l "%args"; s2l "--text"; s2l "hello world"].
Proof using. clear_world. reflexivity. Qed.

(** C2: for every list of lines and every starting index whose line is a
    (non-empty) command line, [joinLine] appends each following line with
    the trailing backslash replaced by exactly one space, as long as the
    accumulated string ends with a backslash or until the last line
    ([join_spec]), and inserts every consumed line, the starting one
    included, into [usedLines]. *)
Theorem joinLine_spec (lines : list gstr) (fromLine : nat) (l : gstr) (usedLines : gset nat) :
  lines !! fromLine = Some l -> l <> [] ->
  joinLine lines fromLine usedLines =
    Some ((join_spec (drop fromLine lines)).1,
          set_seq fromLine (join_spec (drop fromLine lines)).2 ∪ usedLines).
Proof using. clear_world. intros Hl Hne. unfold joinLine. rewrite (drop_S _ _ _ Hl).
  cbn [join_loop join_spec app]. unfold last_byte.
  destruct (last l) as [c0|] eqn:Elast; [|by apply last_None in Elast].
  assert (Hbl : ends_with_backslash l = byte_eqb c0 c_backslash)
    by (unfold ends_with_backslash; by rewrite Elast).
  rewrite Hbl. destruct (byte_eqb c0 c_backslash) eqn:Eb; cbn [negb].
  - destruct (join_spec (drop (S fromLine) lines)) as [s n] eqn:Ej.
    rewrite take_removelast, join_loop_spec.
    + rewrite Ej. cbn [fst snd set_seq]. f_equal. f_equal.
      * by rewrite <- app_assoc.
      * set_solver.
    + intros Hn. apply app_eq_nil in Hn as [_ Hn]. done.
    + unfold ends_with_backslash. by rewrite last_snoc.
  - cbn [fst snd set_seq]. f_equal. f_equal. set_solver.
Qed.

(** [joinLine] on a non-empty line that does not end with a backslash
    takes that line alone. *)
Lemma joinLine_one lines k l used :
  lines !! k = Some l -> l <> [] -> ends_with_backslash l = false ->
  joinLine lines k used = Some (l, {[k]} ∪ used).
Proof using. clear_world.
  intros Hl Hne Hend. unfold joinLine. rewrite (drop_S _ _ _ Hl).
  cbn [join_loop app]. unfold last_byte. unfold ends_with_backslash in Hend.
  destruct (last l) as [c|] eqn:E; [|by apply last_None in E].
  rewrite Hend. reflexivity.
Qed.

(** Lines before the first command line that [Parse] reaches are skipped
    without any effect. *)
Lemma parse_loop_skip_prefix msg execute lines st res used w n :
  forall j f,
  (forall j', j <= j' < j + n ->
     j' ∈ used \/ is_cmd_line (default [] (lines !! j')) = false) ->
  parse_loop (n + f) msg execute lines j st res used w
  = parse_loop f msg execute lines (j + n) st res used w.
Proof.
  induction n as [|n IH]; intros j f H.
  - by rewrite Nat.add_0_r.
  - cbn [Nat.add parse_loop].
    replace (j + S n) with (S j + n) by lia.
    case_bool_decide as Hin.
    + apply IH. intros j' Hj'. apply H. lia.
    + destruct (H j) as [Hu|Hc]; [lia|done|].
      rewrite Hc. apply IH. intros j' Hj'. apply H. lia.
Qed.

(** When no line from [j] on is a command line still to run, the loop
    returns [usedLines] and the pending [err] as they are. *)
Lemma parse_loop_no_cmds msg execute lines st res used w n j :
  (forall j', j <= j' < j + n ->
     j' ∈ used \/ is_cmd_line (default [] (lines !! j')) = false) ->
  parse_loop n msg execute lines j st res used w = Ok (used, res) w.
Proof.
  intros H. rewrite <- (Nat.add_0_r n) at 1.
  rewrite (parse_loop_skip_prefix msg execute lines st res used w n j 0 H). reflexivity.
Qed.

Lemma skip_spaces_blank m : skip_spaces (replicate m c_space) = None.
Proof using. clear_world. induction m as [|m IH]; [done|]. simpl. exact IH. Qed.

(** C3 (amended): a line made of a sigil ['%'] or ['!'] followed only by
    spaces (at least one) makes [Parse] panic, whatever [execute], when its
    loop reaches the line while the line is not in [usedLines]: the turn of
    the loop for that line panics whatever ran before it, whatever the cell
    status and the pending [err]. A line consumed as the continuation of an
    earlier line is in [usedLines] and is skipped. *)
Theorem Parse_panics_on_blank_command (msg : Message) (execute : bool)
    (lines : list gstr) (k m n : nat) (c : ascii) (st : cellStatus) (res : option err)
    (used : gset nat) (w : World) :
  (c = c_percent \/ c = c_bang) -> 1 <= m ->
  lines !! k = Some (c :: replicate m c_space) -> k ∉ used ->
  parse_loop (S n) msg execute lines k st res used w = Panic.
Proof.
  intros Hc Hm Hk Hu.
  cbn [parse_loop]. rewrite bool_decide_false by done.
  rewrite Hk. cbn [default id].
  assert (Hcmd : is_cmd_line (c :: replicate m c_space) = true).
  { unfold is_cmd_line. cbn [length]. rewrite length_replicate.
    rewrite bool_decide_true by lia.
    destruct Hc as [-> | ->]; done. }
  rewrite Hcmd.
  assert (Hend : ends_with_backslash (c :: replicate m c_space) = false).
  { unfold ends_with_backslash. destruct m as [|m]; [lia|].
    rewrite replicate_S_end, app_comm_cons, last_snoc. done. }
  rewrite (joinLine_one _ _ _ _ Hk) by done.
  rewrite skip_spaces_blank. done.
Qed.

(** C9 (the input where it fails): with [execute] false, [Parse] panics on
    the one-line submission ["% "] instead of returning nil. *)
Theorem Parse_noexec_panics_on_percent_space (msg : Message) (w : World) :
  Parse msg false [s2l "% "] ∅ w = Panic.
Proof. reflexivity. Qed.

(** With [execute] false, [Parse] runs nothing: it panics, or it returns
    nil and leaves the world untouched. *)
Lemma parse_loop_noexec msg lines fuel :
  forall j st res used w,
  parse_loop fuel msg false lines j st res used w = Panic \/
  exists used', parse_loop fuel msg false lines j st res used w = Ok (used', res) w.
Proof.
  induction fuel as [|fuel IH]; intros j st res used w.
  - right. eexists. reflexivity.
  - cbn [parse_loop]. case_bool_decide; [apply IH|].
    destruct (is_cmd_line _); [|apply IH].
    destruct (joinLine _ _ _) as [[cmd used1]|]; [|by left].
    destruct cmd as [|ct cmd]; [by left|].
    destruct (skip_spaces cmd) as [[|x s]|]; [apply IH|apply IH|by left].
Qed.

(** C4 (the input where it fails): inside double quotes, a backslash
    followed by the UTF-8 character "é" (bytes C3 A9) does not give "é":
    every byte at or above 0x80 goes through [%c] and is re-encoded as a
    two-byte code point, so the part is the four bytes C3 83 C2 A9 ("Ã©"). *)
Theorem splitCmd_escaped_non_ascii_mangled :
  splitCmd (quoted [c_backslash; ascii_of_nat 195; ascii_of_nat 169])
  = [[ascii_of_nat 195; ascii_of_nat 131; ascii_of_nat 194; ascii_of_nat 169]]
  /\ splitCmd (quoted [c_backslash; ascii_of_nat 195; ascii_of_nat 169])
     <> [[ascii_of_nat 195; ascii_of_nat 169]].
Proof using. clear_world. split; [reflexivity | discriminate]. Qed.

(** For the ASCII bytes the escapes behave as the spec says: inside quotes
    [\n] is a newline, [\t] a tab and [\c] is [c]; outside quotes a
    backslash is an ordinary byte. *)
Definition all_ascii : list ascii := map ascii_of_nat (seq 0 128).

Lemma in_all_ascii c : (N_of_ascii c < 128)%N -> c ∈ all_ascii.
Proof using. clear_world.
  intros H. unfold all_ascii. apply list_elem_of_fmap.
  exists (nat_of_ascii c). split.
  - by rewrite ascii_nat_embedding.
  - apply list_elem_of_In, in_seq. unfold nat_of_ascii. lia.
Qed.

Lemma splitCmd_ascii_escapes c :
  (N_of_ascii c < 128)%N ->
  splitCmd (quoted [c_backslash; c]) =
    [if byte_eqb c "n" then [c_nl] else if byte_eqb c "t" then [c_tab] else [c]]
  /\ (c <> c_space -> c <> c_tab -> c <> c_nl -> c <> c_quote ->
      splitCmd [c_backslash; c] = [[c_backslash; c]]).
Proof using. clear_world.
  intros H. pose proof (in_all_ascii c H) as Hin. clear H.
  revert c Hin. apply Forall_forall. unfold all_ascii. cbn [seq map].
  unfold c_space, c_tab, c_nl, c_quote.
  repeat (apply Forall_cons; split;
          [split; [reflexivity | intros; first [reflexivity | exfalso;
             match goal with H : _ ≠ _ |- _ => apply H; reflexivity end]] |]).
  constructor.
Qed.



(** One turn of the loop of [Parse] on a line [k] not yet used, a command
    line whose joined command is [cmdType :: cmd0] with [cmd0] not blank. *)
Lemma parse_loop_cmd_step msg execute lines k l used cmdType cmd0 used1 cmd st res n w :
  k ∉ used -> lines !! k = Some l -> is_cmd_line l = true ->
  joinLine lines k used = Some (cmdType :: cmd0, used1) ->
  skip_spaces cmd0 = Some cmd -> cmd <> [] ->
  parse_loop (S n) msg execute lines k st res used w =
  (if execute then
     if byte_eqb cmdType c_percent then
       match splitCmd cmd with
       | p0 :: args =>
           if str_eqb p0 (s2l "writefile") then
             let '(cmdBody, used2) := parseCmdBody lines k used1 in
             e <- execWriteFile args cmdBody ;;
             match e with
             | Some _ => ret (used2, e)
             | None => parse_loop n msg execute lines (S k) st None used2
             end
           else
             r <- execInternal msg cmd st ;;
             match r.2 with
             | Some _ => ret (used1, r.2)
             | None => parse_loop n msg execute lines (S k) r.1 None used1
             end
       | [] =>
           r <- execInternal msg cmd st ;;
           match r.2 with
           | Some _ => ret (used1, r.2)
           | None => parse_loop n msg execute lines (S k) r.1 None used1
           end
       end
     else if byte_eqb cmdType c_bang then
       r <- execShell cmd st ;;
       match r.2 with
       | Some _ => ret (used1, r.2)
       | None => t <- call (s2l "AutoTrack") [] ;; parse_loop n msg execute lines (S k) r.1 t.2 used1
       end
     else parse_loop n msg execute lines (S k) st res used1
   else parse_loop n msg execute lines (S k) st res used1) w.
Proof.
  intros Hk Hl Hcmd Hj Hs Hne. cbn [parse_loop].
  rewrite bool_decide_false by done. rewrite Hl. cbn [default id].
  rewrite Hcmd, Hj, Hs. destruct cmd as [|x cmd]; [done|]. reflexivity.
Qed.


Lemma str_eqb_unknown p0 x :
  p0 ∉ known_commands -> x ∈ known_commands -> str_eqb p0 x = false.
Proof using. clear_world. intros H Hx. unfold str_eqb. apply bool_decide_false. by intros ->. Qed.

Local Ltac known_cases p0 Hunk :=
  repeat match goal with
  | |- context [str_eqb p0 ?x] =>
      rewrite (str_eqb_unknown p0 x Hunk)
        by (unfold known_commands; apply list_elem_of_In; cbn;
            repeat (first [left; reflexivity | right]))
  end.

(** C6: a directive whose name [p0] is not one that [execInternal] knows
    (nor [writefile]) does not abort the submission: the name is reported
    as a warning on stderr, the handler returns nil, and [Parse] goes on
    with the next lines. *)
Theorem unknown_directive_warns_and_continues msg lines k l used cmd0 used1 cmd p0 args st res n w :
  k ∉ used -> lines !! k = Some l -> is_cmd_line l = true ->
  joinLine lines k used = Some (c_percent :: cmd0, used1) ->
  skip_spaces cmd0 = Some cmd -> splitCmd cmd = p0 :: args ->
  p0 ∉ known_commands -> p0 <> s2l "writefile" ->
  let w' := set_log (w_log w ++ [EvStream StreamStderr (msg_unknown p0)]) w in
  execInternal msg cmd st w = Ok (st, None) w'
  /\ parse_loop (S n) msg true lines k st res used w = parse_loop n msg true lines (S k) st None used1 w'.
Proof.
  intros Hk Hl Hcmd Hj Hs Hsplit Hunk Hwf w'.
  assert (Hexec : execInternal msg cmd st w = Ok (st, None) w').
  { unfold execInternal. rewrite Hsplit. cbv zeta. cbn [map existsb orb].
    known_cases p0 Hunk. reflexivity. }
  split; [exact Hexec|].
  assert (Hne : cmd <> []) by (intros ->; discriminate).
  rewrite (parse_loop_cmd_step _ _ _ _ _ _ _ _ _ _ _ _ _ _ Hk Hl Hcmd Hj Hs Hne).
  rewrite Hsplit. change (byte_eqb c_percent c_percent) with true.
  unfold str_eqb at 1. rewrite bool_decide_false by done.
  unfold bind. rewrite Hexec. reflexivity.
Qed.

(** A computation that, when it returns, returns the cell status [st]. *)
Definition keeps_status (m : M (cellStatus * option err)) (st : cellStatus) : Prop :=
  forall w st' e w', m w = Ok (st', e) w' -> st' = st.

Lemma keeps_ret st e : keeps_status (ret (st, e)) st.
Proof. intros w st' e' w' H. unfold ret in H. congruence. Qed.

Lemma keeps_panic st : keeps_status panic st.
Proof. intros w st' e w' H. discriminate. Qed.

Lemma keeps_bind {A} (m : M A) k st :
  (forall a, keeps_status (k a) st) -> keeps_status (bind m k) st.
Proof.
  intros Hk w st' e w' H. unfold bind in H.
  destruct (m w) as [|a w1]; [discriminate|]. exact (Hk a _ _ _ _ H).
Qed.

Local Ltac keeps :=
  repeat first
    [ apply keeps_ret | apply keeps_panic
    | apply keeps_bind; intros
    | progress cbv beta iota zeta
    | case_match ].

Local Ltac eval_closed_eqb H :=
  repeat match type of H with
  | context [str_eqb ?a ?b] =>
      let v := eval vm_compute in (str_eqb a b) in change (str_eqb a b) with v in H
  end.

(** C7: the interactive-input and masked-input flags apply to the next
    shell execution only. The wait is 200 ms; every [execShell] returns
    both flags reset to false and runs its command in the mode the flags
    select, interactive input taking precedence ([select_mode]); every
    directive other than [%with_inputs] and [%with_password] leaves the
    flags as they are; and these two set their own flag. *)
Theorem input_flags_apply_to_next_shell :
  MillisecondsWaitForInput = 200
  /\ (forall c cmd st w, exists cmd' dir e w',
        execShell (c :: cmd) st w = Ok (emptyStatus, e) w'
        /\ w_log w' = w_log w ++ [EvShell cmd' dir (select_mode st)])
  /\ (forall msg cmd st w st' e w',
        execInternal msg cmd st w = Ok (st', e) w' ->
        head (splitCmd cmd) <> Some (s2l "with_inputs") ->
        head (splitCmd cmd) <> Some (s2l "with_password") ->
        st' = st)
  /\ (forall msg cmd args st w st' w',
        splitCmd cmd = s2l "with_inputs" :: args ->
        execInternal msg cmd st w = Ok (st', None) w' ->
        withInputs st' = true /\ withPassword st' = withPassword st)
  /\ (forall msg cmd args st w st' w',
        splitCmd cmd = s2l "with_password" :: args ->
        execInternal msg cmd st w = Ok (st', None) w' ->
        withPassword st' = true /\ withInputs st' = withInputs st).
Proof.
  split; [reflexivity|]. split; [|split; [|split]].
  - intros c cmd st w. unfold execShell, bind, gets.
    destruct (byte_eqb c c_star); cbv beta iota zeta;
    destruct st as [[] []]; unfold select_mode; cbn [withInputs withPassword];
    unfold runShell, bind, emit, modify;
    match goal with |- context [ext ?n ?a ?s] => destruct (ext n a s) as [s' r] end;
    do 4 eexists; (split; [reflexivity|]); reflexivity.
  - intros msg cmd st w st' e w' H Hi Hp.
    enough (Hk : keeps_status (execInternal msg cmd st) st) by exact (Hk _ _ _ _ H).
    unfold execInternal.
    destruct (splitCmd cmd) as [|p0 rest]; [apply keeps_panic|].
    cbn [head] in Hi, Hp.
    assert (Hi' : str_eqb p0 (s2l "with_inputs") = false)
      by (unfold str_eqb; apply bool_decide_false; congruence).
    assert (Hp' : str_eqb p0 (s2l "with_password") = false)
      by (unfold str_eqb; apply bool_decide_false; congruence).
    cbv zeta. rewrite Hi', Hp'. keeps.
  - intros msg cmd args st w st' w' Hs H. unfold execInternal in H.
    rewrite Hs in H. cbv zeta in H. eval_closed_eqb H. cbn [map existsb orb] in H.
    eval_closed_eqb H. cbv iota in H.
    unfold allowInput, bind in H. destruct (allow_stdin msg) as [b|]; [|discriminate].
    unfold ret in H. destruct (negb b && (withInputs st || withPassword st)); [discriminate|].
    injection H as <- _. done.
  - intros msg cmd args st w st' w' Hs H. unfold execInternal in H.
    rewrite Hs in H. cbv zeta in H. eval_closed_eqb H. cbn [map existsb orb] in H.
    eval_closed_eqb H. cbv iota in H.
    unfold allowInput, bind in H. destruct (allow_stdin msg) as [b|]; [|discriminate].
    unfold ret in H. destruct (negb b && (withInputs st || withPassword st)); [discriminate|].
    injection H as <- _. done.
Qed.

(** C8 (amended): [%widgets_hb] probes with a timeout of one second: it
    never waits more than 1000 ms; a transport error of the probe is
    returned as is; otherwise it publishes the pong report, or the
    timed-out report when no pong came within the second, and returns the
    result of publishing that report (an error only when publishing
    fails). The cell status is unchanged. *)
Theorem widgets_hb_bounded_probe msg cmd args st w :
  splitCmd cmd = s2l "widgets_hb" :: args ->
  exists e w',
    execInternal msg cmd st w = Ok (st, e) w'
    /\ w_clock w' <= w_clock w + 1000
    /\ match w_hbErr w with
       | Some x => e = Some x /\ w_log w' = w_log w
       | None =>
           let pong := match w_hbReply w with Some d => bool_decide (d <= 1000) | None => false end in
           w_log w' = w_log w ++ [EvHtml (if pong then msg_hb_pong else msg_hb_timeout)]
           /\ e = (if w_pubFail w then Some err_publish else None)
       end.
Proof.
  intros Hs. unfold execInternal. rewrite Hs. cbv zeta.
  match goal with |- context [if ?b then _ else _] =>
    let v := eval vm_compute in b in change b with v end.
  repeat match goal with |- context [str_eqb ?a ?b] =>
    let v := eval vm_compute in (str_eqb a b) in change (str_eqb a b) with v end.
  cbv iota.
  unfold execInternal_widgets_hb, SendHeartbeatAndWait, bind, ret.
  destruct (w_hbErr w) as [x|].
  - do 2 eexists. split; [reflexivity|]. split; [lia|]. done.
  - unfold PublishHtml, publish, bind, emit, modify, gets.
    destruct (w_hbReply w) as [d|].
    + case_bool_decide as Hd; cbn [set_ext set_log w_clock w_log w_pubFail];
        (do 2 eexists; split; [reflexivity|]);
        cbn [set_ext set_log w_clock w_log w_pubFail]; (split; [lia|]);
        (split; [reflexivity|]); destruct (w_pubFail w); reflexivity.
    + cbn [set_ext set_log w_clock w_log w_pubFail];
        (do 2 eexists; split; [reflexivity|]);
        cbn [set_ext set_log w_clock w_log w_pubFail]; (split; [lia|]);
        (split; [reflexivity|]); destruct (w_pubFail w); reflexivity.
Qed.

(** A byte that [splitCmd] copies as it is outside quotes: ASCII, not a
    separator and not a double quote. *)
Definition plain_byte (c : ascii) : bool :=
  bool_decide (N_of_ascii c < 128)%N
  && negb (byte_eqb c c_space || byte_eqb c c_tab || byte_eqb c c_nl || byte_eqb c c_quote).

Lemma split_loop_plain u rest ps part parts :
  Forall (fun b => plain_byte b = true) u ->
  split_loop (u ++ rest) ps false part parts
  = split_loop rest (match u with [] => ps | _ => true end) false (part ++ u) parts.
Proof using. clear_world.
  revert ps part. induction u as [|c u IH]; intros ps part Hu.
  - by rewrite app_nil_r.
  - inversion Hu as [|? ? Hc Hu']; subst.
    unfold plain_byte in Hc. apply andb_prop in Hc as [Hasc Hc].
    apply bool_decide_eq_true in Hasc.
    apply negb_true_iff in Hc. rewrite !orb_false_iff in Hc.
    destruct Hc as [[[H1 H2] H3] H4].
    cbn [app split_loop]. rewrite H1, H2, H3, H4. cbn [orb negb andb].
    assert (Hs : sprintf_c c = [c]) by (unfold sprintf_c; apply N.ltb_lt in Hasc; by rewrite Hasc).
    rewrite andb_false_r, Hs, IH by done. rewrite <- app_assoc. by destruct u.
Qed.

Lemma split_plain_word u parts :
  u <> [] -> Forall (fun b => plain_byte b = true) u ->
  split_loop u false false [] parts = parts ++ [u].
Proof using. clear_world.
  intros Hne Hu. rewrite <- (app_nil_r u) at 1. rewrite split_loop_plain by done.
  by destruct u.
Qed.

Lemma splitCmd_env_prefix x : splitCmd (s2l "env " ++ x) = split_loop x false false [] [s2l "env"].
Proof using. clear_world. reflexivity. Qed.

Lemma existsb_nul_free v :
  Forall (fun b => plain_byte b = true /\ b <> c_nul) v ->
  existsb (fun c => byte_eqb c c_nul) v = false.
Proof using. clear_world.
  induction 1 as [|b v [_ Hb] _ IH]; [done|].
  cbn [existsb]. rewrite IH, orb_false_r.
  destruct (byte_eqb b c_nul) eqn:E; [|done]. by apply byte_eqb_spec in E.
Qed.

Lemma byte_eqb_neq a b : a <> b -> byte_eqb a b = false.
Proof using. clear_world. intros H. destruct (byte_eqb a b) eqn:E; [|done]. by apply byte_eqb_spec in E. Qed.

(** C10: [%env NAME=VALUE] is split into name and value only when the '='
    is at an index greater than 1, so with a one-byte (ASCII) name [c]
    [%env c=v] is not split and fails with the two-arguments usage error
    ("1 were given"), changing nothing, while [%env c v] sets [c] to [v].
    The name is a variable name: not '=' nor NUL, which [os.Setenv]
    refuses; the value is a non-empty word of ASCII bytes without NUL. *)
Theorem env_single_char_name_not_split msg st w c v :
  plain_byte c = true -> c <> c_eq -> c <> c_nul -> v <> [] ->
  Forall (fun b => plain_byte b = true /\ b <> c_nul) v ->
  execInternal msg (s2l "env " ++ [c; c_eq] ++ v) st w = Ok (st, Some (msg_env_usage 1)) w
  /\ exists w', execInternal msg (s2l "env " ++ [c; c_space] ++ v) st w = Ok (st, None) w'
                /\ w_env w' = <[[c] := v]> (w_env w).
Proof.
  intros Hc Hceq Hcnul Hv Hvs.
  assert (Hvp : Forall (fun b => plain_byte b = true) v)
    by (eapply Forall_impl; [exact Hvs|]; intros b [Hb _]; exact Hb).
  assert (Heqp : plain_byte c_eq = true) by reflexivity.
  split.
  - assert (Hs : splitCmd (s2l "env " ++ [c; c_eq] ++ v) = [s2l "env"; [c; c_eq] ++ v]).
    { rewrite splitCmd_env_prefix. apply split_plain_word; [done|].
      constructor; [done|]. constructor; done. }
    unfold execInternal. rewrite Hs. cbv zeta. cbn [map existsb].
    repeat match goal with |- context [str_eqb ?a ?b] =>
      let r := eval vm_compute in (str_eqb a b) in change (str_eqb a b) with r end.
    cbn [orb]. cbv iota.
    unfold execInternal_env, bind, ret.
    cbn [index_byte app]. rewrite (byte_eqb_neq _ _ Hceq).
    change (byte_eqb c_eq c_eq) with true. cbn [fmap option_fmap option_map].
    reflexivity.
  - assert (Hs : splitCmd (s2l "env " ++ [c; c_space] ++ v) = [s2l "env"; [c]; v]).
    { rewrite splitCmd_env_prefix.
      change ([c; c_space] ++ v) with ([c] ++ c_space :: v).
      rewrite split_loop_plain by (constructor; done). cbn [split_loop app].
      change (byte_eqb c_space c_space) with true. cbn [orb negb andb].
      by apply split_plain_word. }
    unfold execInternal. rewrite Hs. cbv zeta. cbn [map existsb].
    repeat match goal with |- context [str_eqb ?a ?b] =>
      let r := eval vm_compute in (str_eqb a b) in change (str_eqb a b) with r end.
    cbn [orb]. cbv iota.
    unfold execInternal_env, bind, ret.
    unfold Setenv. rewrite bool_decide_false by done. cbn [existsb].
    rewrite (byte_eqb_neq _ _ Hceq), (byte_eqb_neq _ _ Hcnul), existsb_nul_free by done.
    cbn [orb]. unfold PublishWriteStream, publish, bind, emit, modify, gets, ret.
    eexists. split; [reflexivity|]. reflexivity.
Qed.

(** ** Further properties of the code *)

(** *** splitCmd *)

Lemma split_ws_nonempty s : split_ws s <> [].
Proof using. clear_world.
  destruct s as [|c s]; cbn [split_ws]; [done|].
  destruct (is_ws c); [done|]. by destruct (split_ws s).
Qed.

Lemma split_ws_app p s :
  Forall (fun c => is_ws c = false) p ->
  split_ws (p ++ s) = match split_ws s with w :: ws => (p ++ w) :: ws | [] => [p] end.
Proof using. clear_world.
  induction 1 as [|c p Hc _ IH]; cbn [app].
  - destruct (split_ws s) eqn:E; [by apply split_ws_nonempty in E|done].
  - cbn [split_ws]. rewrite Hc, IH. by destruct (split_ws s).
Qed.

(** Outside quotes, on ASCII bytes other than the double quote, the loop
    of [splitCmd] cuts the input at the separators and drops the empty
    pieces. *)
Lemma split_loop_fields s :
  Forall (fun c => (N_of_ascii c < 128)%N /\ c <> c_quote) s ->
  forall part parts,
  Forall (fun c => is_ws c = false) part ->
  split_loop s (bool_decide (part <> [])) false part parts = parts ++ fields (part ++ s).
Proof using. clear_world.
  induction 1 as [|c s [Hasc Hq] _ IH]; intros part parts Hp.
  - cbn [split_loop]. unfold fields. rewrite app_nil_r.
    assert (E : split_ws part = [part]).
    { pose proof (split_ws_app part [] Hp) as E. rewrite app_nil_r in E. rewrite E.
      cbn [split_ws]. by rewrite app_nil_r. }
    rewrite E, filter_cons, filter_nil.
    case_bool_decide; case_decide; try done; by rewrite app_nil_r.
  - cbn [split_loop]. fold (is_ws c). unfold fields.
    rewrite split_ws_app by done. cbn [split_ws].
    destruct (is_ws c) eqn:Ews; cbn [negb andb].
    + rewrite (IH [] _ (Forall_nil_2 _)). unfold fields.
      rewrite app_nil_r, filter_cons.
      case_bool_decide; case_decide; try done; by rewrite ?app_nil_r, <- ?app_assoc.
    + rewrite (byte_eqb_neq _ _ Hq), andb_false_r.
      assert (Hs : sprintf_c c = [c]) by (unfold sprintf_c; apply N.ltb_lt in Hasc; by rewrite Hasc).
      rewrite Hs.
      assert (Hne : bool_decide (part ++ [c] <> []) = true).
      { apply bool_decide_true. intros Hn. apply app_eq_nil in Hn as [_ Hn]. done. }
      assert (Hpc : Forall (fun c => is_ws c = false) (part ++ [c]))
        by (apply Forall_app; split; [done|by constructor]).
      rewrite <- Hne, (IH (part ++ [c]) parts Hpc).
      unfold fields. rewrite <- app_assoc. cbn [app].
      rewrite (split_ws_app part (c :: s) Hp). cbn [split_ws]. rewrite Ews. reflexivity.
Qed.

(** [splitCmd] on a command without double quotes made of ASCII bytes is
    [strings.Fields]: the maximal runs of bytes other than space, tab and
    newline, in order; a backslash there is an ordinary byte. *)
Theorem splitCmd_unquoted_is_fields s :
  Forall (fun c => (N_of_ascii c < 128)%N /\ c <> c_quote) s ->
  splitCmd s = fields s.
Proof using. clear_world.
  intros Hs. unfold splitCmd.
  change false with (bool_decide (([] : gstr) <> [])) at 1.
  rewrite split_loop_fields by done. reflexivity.
Qed.

Lemma split_loop_in_quotes u rest ps part parts :
  Forall (fun c => (N_of_ascii c < 128)%N /\ c <> c_quote /\ c <> c_backslash) u ->
  split_loop (u ++ rest) ps true part parts
  = split_loop rest (match u with [] => ps | _ => true end) true (part ++ u) parts.
Proof using. clear_world.
  revert ps part. induction u as [|c u IH]; intros ps part Hu.
  - by rewrite app_nil_r.
  - inversion Hu as [|? ? [Hasc [Hq Hb]] Hu']; subst.
    cbn [app split_loop negb andb].
    rewrite (byte_eqb_neq _ _ Hq), (byte_eqb_neq _ _ Hb). cbn [andb].
    assert (Hs : sprintf_c c = [c]) by (unfold sprintf_c; apply N.ltb_lt in Hasc; by rewrite Hasc).
    rewrite Hs, IH by done. rewrite <- app_assoc. by destruct u.
Qed.

(** Inside double quotes, on ASCII bytes other than the quote and the
    backslash, [splitCmd] keeps every byte, separators included, as one
    part: a closed quote gives its contents (the empty part for [""]), a
    quote never closed runs to the end of the command, and a backslash
    that is the last byte of the command is dropped. *)
Theorem splitCmd_quoted_part s :
  Forall (fun c => (N_of_ascii c < 128)%N /\ c <> c_quote /\ c <> c_backslash) s ->
  splitCmd (quoted s) = [s]
  /\ splitCmd (c_quote :: s) = [s]
  /\ splitCmd (c_quote :: s ++ [c_backslash]) = [s].
Proof using. clear_world.
  intros Hs. unfold splitCmd, quoted. cbn [app split_loop].
  change (byte_eqb c_quote c_space || byte_eqb c_quote c_tab || byte_eqb c_quote c_nl) with false.
  change (byte_eqb c_quote c_quote) with true. cbn [negb andb].
  split; [|split].
  - rewrite split_loop_in_quotes by done. cbn [split_loop].
    change (byte_eqb c_quote c_space || byte_eqb c_quote c_tab || byte_eqb c_quote c_nl) with false.
    change (byte_eqb c_quote c_quote) with true. cbn. by destruct s.
  - rewrite <- (app_nil_r s) at 1. rewrite split_loop_in_quotes by done.
    cbn. by destruct s.
  - rewrite split_loop_in_quotes by done. cbn. by destruct s.
Qed.

(** *** Parse *)

(** The check [len(cmdStr) == 0] ("Skip empty commands") of [Parse] is
    never true: the loop that drops the leading spaces either reads past
    the end (a panic) or stops at a byte that is not a space. *)
Theorem skip_spaces_never_empty s r :
  skip_spaces s = Some r -> exists c r', r = c :: r' /\ c <> c_space.
Proof using. clear_world.
  induction s as [|c s IH]; cbn [skip_spaces]; [done|].
  destruct (byte_eqb c c_space) eqn:E; [exact IH|].
  intros [= <-]. exists c, s. split; [done|].
  intros ->. discriminate.
Qed.

(** *** execInternal *)

Local Ltac eval_eqb_goal :=
  repeat match goal with |- context [str_eqb ?a ?b] =>
    let v := eval vm_compute in (str_eqb a b) in change (str_eqb a b) with v end.

Local Ltac dispatch Hs :=
  unfold execInternal; rewrite Hs; cbv zeta; cbn [map existsb];
  eval_eqb_goal; cbn [orb]; cbv iota.

(** [%%], [%main], [%args] and [%test] set the program arguments to the
    remaining parts (none clears them); [%test] also marks the cell as a
    test, and the others leave that mark as it was. Nothing is published
    and nothing else of the state changes; the result is nil. *)
Theorem args_directive_sets_args msg cmd p0 rest st w :
  splitCmd cmd = p0 :: rest -> p0 ∈ map s2l ["%"; "main"; "args"; "test"] ->
  exists w', execInternal msg cmd st w = Ok (st, None) w'
    /\ w_args w' = rest
    /\ w_cellIsTest w' = w_cellIsTest w || bool_decide (p0 = s2l "test")
    /\ w_cellIsWasm w' = w_cellIsWasm w /\ w_goBuildFlags w' = w_goBuildFlags w
    /\ w_autoGet w' = w_autoGet w /\ w_env w' = w_env w /\ w_files w' = w_files w
    /\ w_log w' = w_log w.
Proof.
  intros Hs Hin. unfold execInternal. rewrite Hs. cbv zeta.
  assert (Hx : existsb (str_eqb p0) (map s2l ["%"; "main"; "args"; "test"]) = true).
  { apply existsb_exists. exists p0. split; [by apply list_elem_of_In|].
    unfold str_eqb. by apply bool_decide_true. }
  rewrite Hx. unfold bind, modify, ret. eexists. split; [reflexivity|]. cbn. done.
Qed.

(** [%wasm] with any parameter is refused with an error and changes
    nothing. *)
Theorem wasm_rejects_parameters msg cmd p ps st w :
  splitCmd cmd = s2l "wasm" :: p :: ps ->
  execInternal msg cmd st w = Ok (st, Some (s2l "`%wasm` takes no extra parameters.")) w.
Proof. intros Hs. dispatch Hs. rewrite bool_decide_true by (cbn; lia). reflexivity. Qed.

(** [%wasm] marks the cell as WASM before it prepares the WASM
    sub-directory: when that fails, the error is returned (wrapped) and the
    mark stays; otherwise a unique id is drawn and the result is nil. *)
Theorem wasm_marks_cell_before_subdir msg cmd st w e1 r x :
  splitCmd cmd = [s2l "wasm"] ->
  ext (s2l "MakeWasmSubdir") [] (w_ext w) = (e1, (r, x)) ->
  exists w',
    execInternal msg cmd st w = Ok (st, option_map (wrap (s2l "failed to prepare `%wasm`")) x) w'
    /\ w_cellIsWasm w' = true
    /\ w_log w' = w_log w ++ EvExt (s2l "MakeWasmSubdir") []
                    :: match x with Some _ => [] | None => [EvExt (s2l "UniqueId") []] end.
Proof.
  intros Hs He. dispatch Hs. rewrite bool_decide_false by (cbn; lia).
  cbv [bind modify call emit ret].
  cbn [w_ext set_log set_goexec]. rewrite He. cbv iota beta. cbn [snd].
  destruct x as [y|].
  - eexists. split; [reflexivity|]. cbn. done.
  - cbn [w_ext set_ext set_log set_goexec].
    destruct (ext (s2l "UniqueId") [] e1) as [e2 r2]. eexists. split; [reflexivity|]. cbn.
    by rewrite <- app_assoc.
Qed.

(** [%goflags] with arguments sets the [go build] flags to those
    arguments with the empty ones removed (so [%goflags ""] clears them);
    without arguments it keeps them. Either way it publishes the flags in
    force and returns nil, even when publishing fails. *)
Theorem goflags_sets_nonempty_flags msg cmd rest st w :
  splitCmd cmd = s2l "goflags" :: rest ->
  let flags := match rest with [] => w_goBuildFlags w | _ => filter (fun s => s <> []) rest end in
  exists w', execInternal msg cmd st w = Ok (st, None) w'
    /\ w_goBuildFlags w' = flags /\ w_args w' = w_args w
    /\ w_log w' = w_log w ++ [EvStream StreamStdout (s2l "%goflags=" ++ fmt_q_list flags ++ [c_nl])].
Proof.
  intros Hs flags. dispatch Hs.
  unfold bind, modify, gets, ret, PublishWriteStream, publish, emit.
  subst flags. destruct rest; (eexists; split; [reflexivity|]); cbn; done.
Qed.

(** [%reset] accepts no parameter or the single parameter [go.mod]; with
    anything else it returns the usage error and does nothing else: the
    definitions are not reset and [go.mod] is not initialised. *)
Theorem reset_rejects_other_parameters msg cmd rest st w :
  splitCmd cmd = s2l "reset" :: rest -> rest <> [] -> rest <> [s2l "go.mod"] ->
  execInternal msg cmd st w = Ok (st, Some msg_reset_usage) w.
Proof.
  intros Hs H1 H2. dispatch Hs.
  destruct rest as [|p1 [|p2 r]]; [done| |reflexivity].
  unfold str_eqb. rewrite bool_decide_false by congruence. reflexivity.
Qed.

(** [%reset] resets the definitions and then initialises [go.mod];
    [%reset go.mod] only initialises [go.mod]. The result is the error of
    the [go.mod] initialisation. *)
Theorem reset_calls_GoModInit msg cmd rest st w :
  splitCmd cmd = s2l "reset" :: rest -> rest = [] \/ rest = [s2l "go.mod"] ->
  let s1 := match rest with [] => (ext (s2l "resetDefinitions") [] (w_ext w)).1 | _ => w_ext w end in
  exists w', execInternal msg cmd st w = Ok (st, (ext (s2l "GoModInit") [] s1).2.2) w'
    /\ w_log w' = w_log w ++ match rest with [] => [EvExt (s2l "resetDefinitions") []] | _ => [] end
                          ++ [EvExt (s2l "GoModInit") []].
Proof.
  intros Hs Hr s1. dispatch Hs. subst s1.
  destruct Hr as [-> | ->]; cbv iota; eval_eqb_goal; cbv iota;
    cbv [bind call emit modify ret]; cbn [w_ext set_log set_ext w_log w_clock].
  - destruct (ext (s2l "resetDefinitions") [] (w_ext w)) as [e1 r1].
    cbn [fst w_ext set_ext set_log w_log w_clock].
    destruct (ext (s2l "GoModInit") [] e1) as [e2 r2].
    eexists. split; [reflexivity|]. cbn. by rewrite <- !app_assoc.
  - destruct (ext (s2l "GoModInit") [] (w_ext w)) as [e2 r2].
    eexists. split; [reflexivity|]. cbn. done.
Qed.

(** [%cd] with more than one argument returns the usage error, with the
    number of arguments, and does nothing else. *)
Theorem cd_rejects_two_arguments msg cmd a b ps st w :
  splitCmd cmd = s2l "cd" :: a :: b :: ps ->
  execInternal msg cmd st w
  = Ok (st, Some (s2l "`%cd [<directory>]`: it takes none or one argument, but "
                  ++ fmt_d (S (S (length ps))) ++ s2l " were given")) w.
Proof. intros Hs. dispatch Hs. unfold execInternal_cd, bind, ret. reflexivity. Qed.

(** [%cd dir], when changing directory succeeds, reads the new working
    directory, publishes it, and records it in the environment variable
    [GONB_DIR_ENV] (when the variable name and the directory are valid for
    [os.Setenv]); the result is nil. *)
Theorem cd_sets_gonb_dir msg cmd dir st w e1 r1 e2 pwd x :
  splitCmd cmd = [s2l "cd"; dir] ->
  ext (s2l "Chdir") [dir] (w_ext w) = (e1, (r1, None)) ->
  ext (s2l "Getwd") [] e1 = (e2, (pwd, x)) ->
  GONB_DIR_ENV <> [] ->
  Forall (fun c => c <> c_eq /\ c <> c_nul) GONB_DIR_ENV -> c_nul ∉ pwd ->
  exists w', execInternal msg cmd st w = Ok (st, None) w'
    /\ w_env w' = <[GONB_DIR_ENV := pwd]> (w_env w)
    /\ w_log w' = w_log w ++ [EvExt (s2l "Chdir") [dir]; EvExt (s2l "Getwd") [];
                              EvStream StreamStdout (s2l "Changed directory to " ++ go_quote pwd ++ [c_nl])].
Proof.
  intros Hs H1 H2 Hk Hkc Hp. dispatch Hs.
  cbv [execInternal_cd bind call emit modify ret].
  cbn [w_ext set_log set_ext]. rewrite H1. cbv iota beta. cbn [snd].
  cbn [w_ext set_log set_ext]. rewrite H2. cbv iota beta. cbn [fst].
  cbv [PublishWriteStream publish emit modify gets bind].
  unfold Setenv. rewrite bool_decide_false by done.
  assert (Ek : existsb (fun c => byte_eqb c c_eq || byte_eqb c c_nul) GONB_DIR_ENV = false).
  { clear - Hkc. induction Hkc as [|c k [Hc1 Hc2] _ IH]; [done|]. cbn [existsb].
    by rewrite (byte_eqb_neq _ _ Hc1), (byte_eqb_neq _ _ Hc2), IH. }
  assert (Ep : existsb (fun c => byte_eqb c c_nul) pwd = false).
  { clear - Hp. induction pwd as [|c p IH]; [done|]. cbn [existsb].
    rewrite IH by set_solver. rewrite byte_eqb_neq by set_solver. done. }
  rewrite Ek, Ep. cbn [orb]. eexists. split; [reflexivity|]. cbn. by rewrite <- !app_assoc.
Qed.

(** [%cd dir] whose directory change fails returns the error wrapped with
    the directory, and neither publishes nor touches the environment. *)
Theorem cd_failure_is_returned msg cmd dir st w e1 r1 y :
  splitCmd cmd = [s2l "cd"; dir] ->
  ext (s2l "Chdir") [dir] (w_ext w) = (e1, (r1, Some y)) ->
  exists w', execInternal msg cmd st w
             = Ok (st, Some (wrap (s2l "`%cd " ++ go_quote dir ++ s2l "` failed") y)) w'
    /\ w_env w' = w_env w /\ w_log w' = w_log w ++ [EvExt (s2l "Chdir") [dir]].
Proof.
  intros Hs H1. dispatch Hs.
  cbv [execInternal_cd bind call emit modify ret].
  cbn [w_ext set_log set_ext]. rewrite H1. cbv iota beta. cbn [snd].
  eexists. split; [reflexivity|]. done.
Qed.

Lemma index_byte_app u c v :
  Forall (fun b => b <> c) u -> index_byte (u ++ c :: v) c = Some (length u).
Proof using. clear_world.
  induction 1 as [|b u Hb _ IH]; cbn [app index_byte length].
  - by rewrite (proj2 (byte_eqb_spec c c) eq_refl).
  - rewrite (byte_eqb_neq _ _ Hb), IH. reflexivity.
Qed.

(** [%env NAME=VALUE] with a name of two bytes or more is cut at the
    first '=': the variable [NAME] is set to everything after it (which
    may hold further '=' or be empty), the assignment is published, and
    the result is nil. Name and value are words of ASCII bytes without
    NUL, the name without '='. *)
Theorem env_assignment_cut_at_first_eq msg st w u v :
  2 <= length u ->
  Forall (fun b => plain_byte b = true /\ b <> c_eq /\ b <> c_nul) u ->
  Forall (fun b => plain_byte b = true /\ b <> c_nul) v ->
  exists w', execInternal msg (s2l "env " ++ u ++ [c_eq] ++ v) st w = Ok (st, None) w'
    /\ w_env w' = <[u := v]> (w_env w)
    /\ w_log w' = w_log w ++ [EvStream StreamStdout (s2l "Set: " ++ u ++ [c_eq] ++ go_quote v ++ [c_nl])].
Proof.
  intros Hlen Hu Hv.
  assert (Hs : splitCmd (s2l "env " ++ u ++ [c_eq] ++ v) = [s2l "env"; u ++ [c_eq] ++ v]).
  { rewrite splitCmd_env_prefix. apply split_plain_word.
    - intros Hn. apply app_eq_nil in Hn as [-> _]. cbn in Hlen. lia.
    - apply Forall_app. split; [by eapply Forall_impl; [exact Hu|]; intros b [Hb _]|].
      constructor; [reflexivity|]. by eapply Forall_impl; [exact Hv|]; intros b [Hb _]. }
  dispatch Hs. unfold execInternal_env.
  change ([c_eq] ++ v) with (c_eq :: v).
  rewrite index_byte_app by (eapply Forall_impl; [exact Hu|]; intros b [_ [Hb _]]; exact Hb).
  rewrite bool_decide_true by lia. cbn [app].
  rewrite take_app_length.
  replace (drop (S (length u)) (u ++ c_eq :: v)) with v
    by (rewrite <- Nat.add_1_r, <- drop_drop, drop_app_length; reflexivity).
  unfold bind, ret, Setenv.
  rewrite bool_decide_false by (intros ->; cbn in Hlen; lia).
  assert (Ek : existsb (fun c => byte_eqb c c_eq || byte_eqb c c_nul) u = false).
  { clear - Hu. induction Hu as [|c k [_ [Hc1 Hc2]] _ IH]; [done|]. cbn [existsb].
    by rewrite (byte_eqb_neq _ _ Hc1), (byte_eqb_neq _ _ Hc2), IH. }
  rewrite Ek, existsb_nul_free by done. cbn [orb].
  cbv [PublishWriteStream publish emit modify gets bind ret].
  eexists. split; [reflexivity|]. cbn. done.
Qed.

(** [%env] that does not end up with exactly a name and a value (after
    cutting a single argument at an '=' past its second byte) returns the
    usage error with the number of arguments given, and changes nothing. *)
Theorem env_usage_error msg cmd args st w :
  splitCmd cmd = s2l "env" :: args -> length args <> 2 ->
  (forall a i, args = [a] -> index_byte a c_eq = Some i -> i <= 1) ->
  execInternal msg cmd st w = Ok (st, Some (msg_env_usage (length args))) w.
Proof.
  intros Hs Hl Hi. dispatch Hs. unfold execInternal_env, bind, ret.
  destruct args as [|a [|b [|c r]]]; cbn [length] in Hl.
  - reflexivity.
  - destruct (index_byte a c_eq) as [i|] eqn:E; [|reflexivity].
    rewrite bool_decide_false by (specialize (Hi a i eq_refl E); lia). reflexivity.
  - lia.
  - reflexivity.
Qed.

(** [%env NAME VALUE] that [os.Setenv] refuses (an empty name, a name
    holding '=' or NUL, a value holding NUL) returns the error wrapped
    with the quoted name and value; nothing is set or published. *)
Theorem env_refused_by_setenv msg cmd k v st w :
  splitCmd cmd = [s2l "env"; k; v] ->
  k = [] \/ c_eq ∈ k \/ c_nul ∈ k \/ c_nul ∈ v ->
  execInternal msg cmd st w
  = Ok (st, Some (wrap (s2l "`%env " ++ go_quote k ++ [c_space] ++ go_quote v ++ s2l "` failed")
                       err_einval)) w.
Proof.
  intros Hs Hbad. dispatch Hs. unfold execInternal_env, bind, ret, Setenv.
  assert (Hb : bool_decide (k = []) || existsb (fun c => byte_eqb c c_eq || byte_eqb c c_nul) k
               || existsb (fun c => byte_eqb c c_nul) v = true).
  { destruct Hbad as [-> | [H | [H | H]]].
    - done.
    - apply orb_true_iff. left. apply orb_true_iff. right.
      apply existsb_exists. exists c_eq. split; [by apply list_elem_of_In|]. done.
    - apply orb_true_iff. left. apply orb_true_iff. right.
      apply existsb_exists. exists c_nul. split; [by apply list_elem_of_In|].
      by rewrite orb_true_r.
    - apply orb_true_iff. right.
      apply existsb_exists. exists c_nul. split; [by apply list_elem_of_In|]. done. }
  rewrite Hb. reflexivity.
Qed.

(** In a notebook that does not allow input prompting, the first of
    [%with_inputs] and [%with_password] in a cell is accepted and sets its
    flag; the other one after it is refused with an error, the flags
    staying as they were. *)
Theorem input_directive_accepted_once_without_stdin msg c1 c2 a1 a2 w :
  allow_stdin msg = Some false ->
  splitCmd c1 = s2l "with_inputs" :: a1 -> splitCmd c2 = s2l "with_password" :: a2 ->
  let st1 := {| withInputs := true; withPassword := false |} in
  let st2 := {| withInputs := false; withPassword := true |} in
  execInternal msg c1 emptyStatus w = Ok (st1, None) w
  /\ execInternal msg c2 st1 w = Ok (st1, Some (msg_no_input (s2l "with_password"))) w
  /\ execInternal msg c2 emptyStatus w = Ok (st2, None) w
  /\ execInternal msg c1 st2 w = Ok (st2, Some (msg_no_input (s2l "with_inputs"))) w.
Proof.
  intros Hm H1 H2 st1 st2.
  split; [|split; [|split]];
    first [dispatch H1 | dispatch H2]; unfold allowInput, bind, ret; rewrite Hm; reflexivity.
Qed.

(** [%with_inputs] and [%with_password] read the message's
    [allow_stdin] with an unchecked type assertion: without it they
    panic. *)
Theorem input_directive_panics_without_allow_stdin msg cmd p0 args st w :
  allow_stdin msg = None -> splitCmd cmd = p0 :: args ->
  p0 = s2l "with_inputs" \/ p0 = s2l "with_password" ->
  execInternal msg cmd st w = Panic.
Proof.
  intros Hm Hs [-> | ->]; dispatch Hs; unfold allowInput, bind; rewrite Hm; reflexivity.
Qed.

(** [%autoget] and [%noautoget] switch the automatic [go get] on and off,
    ignore any argument, change nothing else and return nil. *)
Theorem autoget_switch msg cmd p0 args st w :
  splitCmd cmd = p0 :: args -> p0 = s2l "autoget" \/ p0 = s2l "noautoget" ->
  exists w', execInternal msg cmd st w = Ok (st, None) w'
    /\ w_autoGet w' = bool_decide (p0 = s2l "autoget")
    /\ w_args w' = w_args w /\ w_cellIsTest w' = w_cellIsTest w
    /\ w_cellIsWasm w' = w_cellIsWasm w /\ w_goBuildFlags w' = w_goBuildFlags w
    /\ w_log w' = w_log w /\ w_env w' = w_env w /\ w_files w' = w_files w.
Proof.
  intros Hs [-> | ->]; dispatch Hs; unfold bind, modify, ret;
    (eexists; split; [reflexivity|]); cbn; done.
Qed.

(** [%ls] and [%list] are the same directive, whatever their arguments;
    so are [%rm] and [%remove] given the same arguments. *)
Theorem alias_directives_agree msg st w :
  (forall c1 c2 r1 r2, splitCmd c1 = s2l "ls" :: r1 -> splitCmd c2 = s2l "list" :: r2 ->
     execInternal msg c1 st w = execInternal msg c2 st w)
  /\ (forall c1 c2 r, splitCmd c1 = s2l "rm" :: r -> splitCmd c2 = s2l "remove" :: r ->
     execInternal msg c1 st w = execInternal msg c2 st w).
Proof.
  split.
  - intros c1 c2 r1 r2 H1 H2. dispatch H1. dispatch H2. reflexivity.
  - intros c1 c2 r H1 H2. dispatch H1. dispatch H2. reflexivity.
Qed.

(** *** execWriteFile *)


(** When the destination cannot be opened, [execWriteFile] returns the
    error of [os.OpenFile] and neither writes nor reports anything. *)
Theorem writefile_open_failure args body app pos1 w :
  FlagsParse args = (app, pos1) ->
  let f := default (w_uniqueID w ++ s2l ".out") pos1 in
  f ∈ w_unwritable w ->
  execWriteFile args body w = Ok (Some (err_open f)) w.
Proof.
  intros Hf f Hw. unfold execWriteFile. rewrite Hf.
  assert (E : match pos1 with Some f => f | None => w_uniqueID w ++ s2l ".out" end = f)
    by (by destruct pos1).
  rewrite E, bool_decide_true by done. reflexivity.
Qed.


(** *** execShell *)

(** [!*cmd] runs [cmd] in the temporary directory of the cell, [!cmd] in
    the current directory ([""]); the shell's result is returned. *)
Theorem execShell_directory c rest st w :
  let cmd := if byte_eqb c c_star then rest else c :: rest in
  let dir := if byte_eqb c c_star then w_tempDir w else [] in
  exists st' w', execShell (c :: rest) st w = Ok (st', (ext (s2l "jpyexec") [cmd; dir] (w_ext w)).2.2) w'
    /\ w_log w' = w_log w ++ [EvShell cmd dir (select_mode st)].
Proof.
  intros cmd dir. unfold execShell, bind, gets. subst cmd dir.
  destruct (byte_eqb c c_star); cbv beta iota zeta;
    destruct st as [[] []]; unfold select_mode; cbn [withInputs withPassword];
    cbv [runShell bind emit modify ret]; cbn [w_ext set_log];
    match goal with |- context [ext ?n ?a ?s] => destruct (ext n a s) as [s' r] end;
    do 2 eexists; (split; [reflexivity|]); reflexivity.
Qed.

(** *** Parse *)

(** When a ['%'] directive (other than [writefile]) returns an error,
    [Parse] stops there and returns it: no later line is run or used. *)
Theorem Parse_stops_at_failing_directive msg lines k l used cmd0 used1 cmd p0 args st res n w st' e w' :
  k ∉ used -> lines !! k = Some l -> is_cmd_line l = true ->
  joinLine lines k used = Some (c_percent :: cmd0, used1) ->
  skip_spaces cmd0 = Some cmd -> splitCmd cmd = p0 :: args -> p0 <> s2l "writefile" ->
  execInternal msg cmd st w = Ok (st', Some e) w' ->
  parse_loop (S n) msg true lines k st res used w = Ok (used1, Some e) w'.
Proof.
  intros Hk Hl Hcmd Hj Hs Hsplit Hwf Hex.
  assert (Hne : cmd <> []) by (intros ->; discriminate).
  rewrite (parse_loop_cmd_step _ _ _ _ _ _ _ _ _ _ _ _ _ _ Hk Hl Hcmd Hj Hs Hne).
  rewrite Hsplit. change (byte_eqb c_percent c_percent) with true.
  unfold str_eqb at 1. rewrite bool_decide_false by done.
  unfold bind. rewrite Hex. reflexivity.
Qed.

(** When a shell command returns an error, [Parse] stops there and
    returns it, without the [AutoTrack] that follows a successful one. *)
Theorem Parse_stops_at_failing_shell msg lines k l used cmd0 used1 cmd st res n w st' e w' :
  k ∉ used -> lines !! k = Some l -> is_cmd_line l = true ->
  joinLine lines k used = Some (c_bang :: cmd0, used1) ->
  skip_spaces cmd0 = Some cmd ->
  execShell cmd st w = Ok (st', Some e) w' ->
  parse_loop (S n) msg true lines k st res used w = Ok (used1, Some e) w'.
Proof.
  intros Hk Hl Hcmd Hj Hs Hex.
  assert (Hne : cmd <> []) by (intros ->; discriminate).
  rewrite (parse_loop_cmd_step _ _ _ _ _ _ _ _ _ _ _ _ _ _ Hk Hl Hcmd Hj Hs Hne).
  change (byte_eqb c_bang c_percent) with false. change (byte_eqb c_bang c_bang) with true.
  cbv iota. unfold bind. rewrite Hex. reflexivity.
Qed.

(** After a shell command that succeeds, [Parse] calls [AutoTrack] and goes
    on with the next line, with the flags the shell command left (both
    reset) and [AutoTrack]'s error as its pending result [err]: when no
    command line follows, [Parse] returns that error. *)
Theorem Parse_autotrack_after_shell msg lines k l used cmd0 used1 cmd st res n w st' w1 :
  k ∉ used -> lines !! k = Some l -> is_cmd_line l = true ->
  joinLine lines k used = Some (c_bang :: cmd0, used1) ->
  skip_spaces cmd0 = Some cmd ->
  execShell cmd st w = Ok (st', None) w1 ->
  let a := (ext (s2l "AutoTrack") [] (w_ext w1)).2.2 in
  exists w2, w_log w2 = w_log w1 ++ [EvExt (s2l "AutoTrack") []]
    /\ parse_loop (S n) msg true lines k st res used w
       = parse_loop n msg true lines (S k) st' a used1 w2
    /\ ((forall j, S k <= j < S k + n ->
          j ∈ used1 \/ is_cmd_line (default [] (lines !! j)) = false) ->
        parse_loop (S n) msg true lines k st res used w = Ok (used1, a) w2).
Proof.
  intros Hk Hl Hcmd Hj Hs Hex a.
  assert (Hne : cmd <> []) by (intros ->; discriminate).
  set (w1' := set_log (w_log w1 ++ [EvExt (s2l "AutoTrack") []]) w1).
  set (W := set_ext (w_clock w1') (ext (s2l "AutoTrack") [] (w_ext w1)).1 w1').
  assert (Hmid : parse_loop (S n) msg true lines k st res used w
                 = parse_loop n msg true lines (S k) st' a used1 W).
  { rewrite (parse_loop_cmd_step _ _ _ _ _ _ _ _ _ _ _ _ _ _ Hk Hl Hcmd Hj Hs Hne).
    change (byte_eqb c_bang c_percent) with false. change (byte_eqb c_bang c_bang) with true.
    cbv iota. unfold bind at 1. rewrite Hex. cbn [fst snd].
    cbv [bind call emit modify]. fold w1'. change (w_ext w1') with (w_ext w1).
    unfold a, W. destruct (ext (s2l "AutoTrack") [] (w_ext w1)) as [e2 [r2 a2]].
    reflexivity. }
  exists W. split; [reflexivity|]. split; [exact Hmid|].
  intros Hrest. rewrite Hmid. exact (parse_loop_no_cmds msg true lines st' a used1 W n (S k) Hrest).
Qed.

Lemma used_grows_refl lines j u : used_grows lines j u u.
Proof using. clear_world. split; [done|]. intros i Hi. by left. Qed.

Lemma used_grows_trans lines j u1 u2 u3 :
  used_grows lines j u1 u2 -> used_grows lines (S j) u2 u3 -> used_grows lines j u1 u3.
Proof using. clear_world.
  intros [H1 H2] [H3 H4]. split; [set_solver|].
  intros i Hi. destruct (H4 i Hi) as [Hi2|Hi2]; [|right; lia].
  destruct (H2 i Hi2); [by left|right; lia].
Qed.

Lemma used_grows_same lines j u1 u2 u3 :
  used_grows lines j u1 u2 -> used_grows lines j u2 u3 -> used_grows lines j u1 u3.
Proof using. clear_world.
  intros [H1 H2] [H3 H4]. split; [set_solver|].
  intros i Hi. destruct (H4 i Hi) as [Hi2|Hi2]; [|by right].
  destruct (H2 i Hi2); [by left|by right].
Qed.

Lemma used_grows_later lines j u1 u2 :
  used_grows lines (S j) u1 u2 -> used_grows lines j u1 u2.
Proof using. clear_world. intros [H1 H2]. split; [done|]. intros i Hi. destruct (H2 i Hi); [by left|right; lia]. Qed.

Lemma join_loop_used lines rest i acc used c u1 :
  rest = drop i lines ->
  join_loop rest i acc used = Some (c, u1) -> used_grows lines i used u1.
Proof using. clear_world.
  revert i acc used. induction rest as [|l rest IH]; intros i acc used Hr H.
  - cbn in H. injection H as _ <-. apply used_grows_refl.
  - assert (Hi : i < length lines).
    { destruct (decide (i < length lines)); [done|]. rewrite drop_ge in Hr by lia. done. }
    assert (Hrest : rest = drop (S i) lines).
    { rewrite <- Nat.add_1_r, <- drop_drop, <- Hr. reflexivity. }
    cbn [join_loop] in H. destruct (last_byte _) as [b|]; [|discriminate].
    assert (Hstep : used_grows lines i used ({[i]} ∪ used)).
    { split; [set_solver|]. intros x Hx. apply elem_of_union in Hx as [Hx|Hx]; [|by left].
      apply elem_of_singleton in Hx as ->. right. lia. }
    destruct (negb _).
    + injection H as _ <-. exact Hstep.
    + eapply used_grows_trans; [exact Hstep|]. eapply IH; [exact Hrest|exact H].
Qed.

Lemma body_loop_used lines rest i acc used b u1 :
  rest = drop i lines ->
  body_loop rest i acc used = (b, u1) -> used_grows lines i used u1.
Proof using. clear_world.
  revert i acc used. induction rest as [|l rest IH]; intros i acc used Hr H.
  - cbn in H. injection H as _ <-. apply used_grows_refl.
  - assert (Hi : i < length lines).
    { destruct (decide (i < length lines)); [done|]. rewrite drop_ge in Hr by lia. done. }
    assert (Hrest : rest = drop (S i) lines).
    { rewrite <- Nat.add_1_r, <- drop_drop, <- Hr. reflexivity. }
    cbn [body_loop] in H. destruct (starts_with_sigil l).
    + injection H as _ <-. apply used_grows_refl.
    + assert (Hstep : used_grows lines i used ({[i]} ∪ used)).
      { split; [set_solver|]. intros x Hx. apply elem_of_union in Hx as [Hx|Hx]; [|by left].
        apply elem_of_singleton in Hx as ->. right. lia. }
      eapply used_grows_trans; [exact Hstep|]. eapply IH; [exact Hrest|exact H].
Qed.

Lemma parse_loop_used msg execute lines fuel :
  forall j st res used w used' e w',
  parse_loop fuel msg execute lines j st res used w = Ok (used', e) w' ->
  used_grows lines j used used'.
Proof.
  induction fuel as [|fuel IH]; intros j st res used w used' e w' H.
  - cbn in H. injection H as <- _ _. apply used_grows_refl.
  - cbn [parse_loop] in H.
    case_bool_decide; [by eapply used_grows_later, IH|].
    destruct (is_cmd_line (default [] (lines !! j))) eqn:Hc; [|by eapply used_grows_later, IH].
    assert (Hj : j < length lines).
    { destruct (lines !! j) eqn:E; [by apply lookup_lt_Some in E|done]. }
    destruct (joinLine lines j used) as [[cmd u1]|] eqn:Hjl; [|discriminate].
    assert (Hu1 : used_grows lines j used u1)
      by (eapply join_loop_used; [reflexivity|exact Hjl]).
    assert (Hnext : forall st1 res1 w1,
              parse_loop fuel msg execute lines (S j) st1 res1 u1 w1 = Ok (used', e) w' ->
              used_grows lines j used used')
      by (intros st1 res1 w1 H1; eapply used_grows_trans; [exact Hu1|eapply IH; exact H1]).
    destruct cmd as [|ct cmd]; [discriminate|].
    destruct (skip_spaces cmd) as [[|x s]|]; [by eapply Hnext| |discriminate].
    destruct execute; [|by eapply Hnext].
    destruct (byte_eqb ct c_percent).
    + destruct (splitCmd (x :: s)) as [|p0 args].
      * unfold bind in H. destruct (execInternal _ _ _ _) as [|[st1 e1] w1]; [discriminate|].
        destruct e1; cbn [snd fst] in H; [unfold ret in H; injection H as <- _ _; exact Hu1|].
        by eapply Hnext.
      * destruct (str_eqb p0 (s2l "writefile")).
        -- destruct (parseCmdBody lines j u1) as [body u2] eqn:Hb.
           assert (Hu2 : used_grows lines j used u2).
           { unfold parseCmdBody in Hb.
             assert (Hstep : used_grows lines j u1 ({[j]} ∪ u1)).
             { split; [set_solver|]. intros y Hy. apply elem_of_union in Hy as [Hy|Hy]; [|by left].
               apply elem_of_singleton in Hy as ->. right. lia. }
             apply (used_grows_same lines j _ _ _ Hu1), (used_grows_same lines j _ _ _ Hstep).
             apply used_grows_later. eapply body_loop_used; [reflexivity|exact Hb]. }
           unfold bind in H. destruct (execWriteFile args body w) as [|e1 w1]; [discriminate|].
           destruct e1; [unfold ret in H; injection H as <- _ _; exact Hu2|].
           eapply used_grows_trans; [exact Hu2|]. eapply IH. exact H.
        -- unfold bind in H. destruct (execInternal _ _ _ _) as [|[st1 e1] w1]; [discriminate|].
           destruct e1; cbn [snd fst] in H; [unfold ret in H; injection H as <- _ _; exact Hu1|].
           by eapply Hnext.
    + destruct (byte_eqb ct c_bang); [|by eapply Hnext].
      unfold bind in H. destruct (execShell _ _ _) as [|[st1 e1] w1]; [discriminate|].
      destruct e1; cbn [snd fst] in H; [unfold ret in H; injection H as <- _ _; exact Hu1|].
      destruct (call _ _ w1) as [|a w2]; [discriminate|]. by eapply Hnext.
Qed.

(** [Parse] only adds to [usedLines]: every line the caller marked used
    stays used, and every index it adds is the index of a line of the
    submission. *)
Theorem Parse_used_lines_bounded msg execute lines used w used' e w' :
  Parse msg execute lines used w = Ok (used', e) w' ->
  used ⊆ used' /\ forall i, i ∈ used' -> i ∈ used \/ i < length lines.
Proof.
  intros H. destruct (parse_loop_used _ _ _ _ _ _ _ _ _ _ _ _ H) as [H1 H2].
  split; [done|]. intros i Hi. destruct (H2 i Hi) as [?|[_ ?]]; [by left|by right].
Qed.

(** A submission without command lines (a line of two bytes or more
    starting with ['%'] or ['!']) goes through [Parse] untouched: nothing
    runs, no line is used, the result is nil. *)
Theorem Parse_without_commands_is_identity msg execute lines used w :
  (forall j l, lines !! j = Some l -> is_cmd_line l = false) ->
  Parse msg execute lines used w = Ok (used, None) w.
Proof.
  intros H. unfold Parse.
  rewrite <- (Nat.add_0_r (length lines)).
  rewrite (parse_loop_skip_prefix msg execute lines emptyStatus None used w (length lines) 0 0).
  - reflexivity.
  - intros j' Hj'. right. destruct (lines !! j') as [l|] eqn:E; [by apply (H j')|done].
Qed.

(** With [execute] false, [Parse] runs nothing and returns no error: it
    either panics or returns nil with the world unchanged. *)
Theorem Parse_noexec_runs_nothing msg lines used w :
  Parse msg false lines used w = Panic
  \/ exists used', Parse msg false lines used w = Ok (used', None) w.
Proof. unfold Parse. apply parse_loop_noexec. Qed.

Lemma split_loop_tabs p parts : split_loop (replicate p c_tab) false false [] parts = parts.
Proof using. clear_world. induction p as [|p IH]; [done|]. exact IH. Qed.

Lemma skip_spaces_then_tabs m p :
  1 <= p -> skip_spaces (replicate m c_space ++ replicate p c_tab) = Some (replicate p c_tab).
Proof using. clear_world.
  intros Hp. induction m as [|m IH]; [|exact IH]. destruct p; [lia|]. reflexivity.
Qed.

(** With [execute] true, a ['%'] line whose text after the sigil and the
    leading spaces is only tabs makes [Parse] panic when its loop reaches
    the line while the line is not in [usedLines], whatever ran before it:
    [splitCmd] gives no part and [execInternal] reads [parts[0]]. *)
Theorem Parse_panics_on_tab_only_directive msg lines used k m p st res n w :
  1 <= p ->
  lines !! k = Some (c_percent :: replicate m c_space ++ replicate p c_tab) -> k ∉ used ->
  parse_loop (S n) msg true lines k st res used w = Panic.
Proof.
  intros Hp Hk Hu.
  cbn [Nat.add parse_loop]. case_bool_decide; [done|].
  rewrite Hk. cbn [default id].
  assert (Hcmd : is_cmd_line (c_percent :: replicate m c_space ++ replicate p c_tab) = true).
  { unfold is_cmd_line. cbn [length]. rewrite length_app, !length_replicate.
    rewrite bool_decide_true by lia. reflexivity. }
  rewrite Hcmd.
  assert (Hend : ends_with_backslash (c_percent :: replicate m c_space ++ replicate p c_tab) = false).
  { unfold ends_with_backslash. destruct p as [|p]; [lia|].
    rewrite replicate_S_end, app_assoc, app_comm_cons, last_snoc. done. }
  rewrite (joinLine_one _ _ _ _ Hk) by done.
  rewrite skip_spaces_then_tabs by done.
  destruct p as [|p]; [lia|]. cbn [replicate].
  change (byte_eqb c_percent c_percent) with true. cbv iota.
  assert (Hs : splitCmd (c_tab :: replicate p c_tab) = []) by exact (split_loop_tabs (S p) []).
  rewrite Hs. unfold bind, execInternal. rewrite Hs. reflexivity.
Qed.

End Gonb.

Arguments Panic {ExtState A}.
Arguments Ok {ExtState A} a w.
Arguments w_args {ExtState} _.
Arguments w_cellIsTest {ExtState} _.
Arguments w_cellIsWasm {ExtState} _.
Arguments w_goBuildFlags {ExtState} _.
Arguments w_autoGet {ExtState} _.
Arguments w_uniqueID {ExtState} _.
Arguments w_tempDir {ExtState} _.
Arguments w_env {ExtState} _.
Arguments w_files {ExtState} _.
Arguments w_unwritable {ExtState} _.
Arguments w_log {ExtState} _.
Arguments w_pubFail {ExtState} _.
Arguments w_hbReply {ExtState} _.
Arguments w_hbErr {ExtState} _.
Arguments w_clock {ExtState} _.
Arguments w_ext {ExtState} _.
Arguments set_log {ExtState} l w.

(** ** Concrete runs *)

(** Collaborators that do nothing and never fail. *)
Definition ext0 (_ : gstr) (_ : list gstr) (s : unit) : unit * (gstr * option err) :=
  (s, ([], None)).

Definition msg0 : Message := {| allow_stdin := Some true |}.

Definition mk_world (pubFail : bool) : World unit :=
  {| w_args := []; w_cellIsTest := false; w_cellIsWasm := false; w_goBuildFlags := [];
     w_autoGet := false; w_uniqueID := s2l "cell"; w_tempDir := s2l "/tmp/gonb";
     w_env := ∅; w_files := ∅; w_unwritable := ∅; w_log := []; w_pubFail := pubFail;
     w_hbReply := None; w_hbErr := None; w_clock := 0; w_ext := tt |}.

Definition w0 : World unit := mk_world false.

Definition lines_join : list gstr := [s2l "%args a \"; s2l "b \"; s2l "c"; s2l "d"].

Lemma joinLine_spec_witness :
  lines_join !! 0 = Some (s2l "%args a \") /\ s2l "%args a \" <> [] /\
  joinLine lines_join 0 ∅ =
    Some ((join_spec (drop 0 lines_join)).1, set_seq 0 (join_spec (drop 0 lines_join)).2 ∪ ∅)
  /\ (join_spec lines_join).1 = s2l "%args a  b  c".
Proof.
  split; [reflexivity|]. split; [discriminate|]. split.
  - apply (joinLine_spec lines_join 0 (s2l "%args a \") ∅); [reflexivity|discriminate].
  - reflexivity.
Defined.

(** Runs the first line, ["%args x"], of a two-line submission, then
    leaves the turn of the loop for the second line to [tac]. *)
Local Ltac after_args_line lines tac :=
  unfold Parse; cbn [length];
  rewrite (parse_loop_cmd_step unit ext0 id [] [] msg0 true lines 0 (s2l "%args x") ∅ c_percent
             (s2l "args x") ({[0]} ∪ ∅) (s2l "args x") emptyStatus None 1 w0);
    [| set_solver | reflexivity | reflexivity | reflexivity | reflexivity | discriminate];
  replace (splitCmd (s2l "args x")) with [s2l "args"; s2l "x"] by reflexivity;
  replace (str_eqb (s2l "args") (s2l "writefile")) with false by reflexivity;
  change (byte_eqb c_percent c_percent) with true; cbv iota; unfold bind;
  destruct (execInternal unit ext0 id [] [] msg0 (s2l "args x") emptyStatus w0)
    as [|[st1 e1] w1] eqn:E; [vm_compute in E; discriminate|];
  assert (He1 : e1 = None) by (vm_compute in E; congruence);
  subst e1; cbv beta; cbn [fst snd]; cbv iota; tac st1 w1.

Definition lines_blank : list gstr := [s2l "%args x"; s2l "%  "].

Lemma Parse_panics_on_blank_command_witness :
  lines_blank !! 1 = Some (c_percent :: replicate 2 c_space) /\
  Parse unit ext0 id [] [] msg0 true lines_blank ∅ w0 = Panic.
Proof.
  split; [reflexivity|].
  after_args_line lines_blank ltac:(fun st1 w1 =>
    apply (Parse_panics_on_blank_command unit ext0 id [] [] msg0 true lines_blank 1 2 0 c_percent
             st1 None ({[0]} ∪ ∅) w1);
    [left; reflexivity | lia | reflexivity | set_solver]).
Defined.



Definition lines_unknown : list gstr := [s2l "%foo bar"; s2l "x"].

Lemma unknown_directive_warns_and_continues_witness :
  (s2l "foo" ∉ known_commands) /\
  parse_loop unit ext0 id [] [] 2 msg0 true lines_unknown 0 emptyStatus None ∅ w0 =
  parse_loop unit ext0 id [] [] 1 msg0 true lines_unknown 1 emptyStatus None ({[0]} ∪ ∅)
    (set_log (w_log w0 ++ [EvStream StreamStderr (msg_unknown (s2l "foo"))]) w0).
Proof.
  assert (Hunk : s2l "foo" ∉ known_commands).
  { unfold known_commands. rewrite list_elem_of_In. cbn. intuition discriminate. }
  split; [exact Hunk|].
  apply (unknown_directive_warns_and_continues unit ext0 id [] [] msg0 lines_unknown 0
           (s2l "%foo bar") ∅ (s2l "foo bar") ({[0]} ∪ ∅) (s2l "foo bar") (s2l "foo")
           [s2l "bar"] emptyStatus None 1 w0).
  - set_solver.
  - reflexivity.
  - reflexivity.
  - reflexivity.
  - reflexivity.
  - reflexivity.
  - exact Hunk.
  - discriminate.
Defined.

Lemma widgets_hb_bounded_probe_witness :
  splitCmd (s2l "widgets_hb") = s2l "widgets_hb" :: [] /\
  exists (e : option err) (w' : World unit),
    execInternal unit ext0 id [] [] msg0 (s2l "widgets_hb") emptyStatus w0
                 = Ok (emptyStatus, e) w' /\ w_clock w' <= 1000.
Proof.
  split; [reflexivity|].
  destruct (widgets_hb_bounded_probe unit ext0 id [] [] msg0 (s2l "widgets_hb") []
              emptyStatus w0 eq_refl) as (e & w' & H1 & H2 & _).
  exists e, w'. split; [exact H1|]. exact H2.
Defined.

Lemma env_single_char_name_not_split_witness :
  plain_byte "K" = true /\
  execInternal unit ext0 id [] [] msg0 (s2l "env K=V") emptyStatus w0
    = Ok (emptyStatus, Some (msg_env_usage 1)) w0.
Proof.
  split; [reflexivity|].
  destruct (env_single_char_name_not_split unit ext0 id [] [] msg0 emptyStatus w0 "K" (s2l "V"))
    as [H _].
  - reflexivity.
  - unfold c_eq. discriminate.
  - intros H. vm_compute in H. discriminate.
  - discriminate.
  - constructor; [|constructor]. split; [reflexivity|]. intros H. vm_compute in H. discriminate.
  - exact H.
Defined.

(** ** Counterexamples *)

(** C3: the submission ["%a \"; "% "] contains the line ["% "], yet [Parse]
    does not panic: the line is joined to the one before it as a
    continuation and never examined on its own. *)
Lemma Parse_blank_line_as_continuation_no_panic :
  Parse unit ext0 id [] [] msg0 false [s2l "%a \"; s2l "% "] ∅ w0 <> Panic.
Proof. vm_compute. discriminate. Qed.

(** C8: with no probe error but a kernel that rejects publishing, the
    [%widgets_hb] handler returns the publishing error. *)
Definition w_pub_fails : World unit := mk_world true.

Lemma widgets_hb_returns_publish_error :
  w_hbErr w_pub_fails = None /\
  exists w', execInternal unit ext0 id [] [] msg0 (s2l "widgets_hb") emptyStatus w_pub_fails
             = Ok (emptyStatus, Some err_publish) w'.
Proof. split; [reflexivity|]. eexists. reflexivity. Qed.

(** ** Runs of the further properties *)

(** Collaborators where changing directory and running a shell command
    fail. *)
Definition ext_fail (n : gstr) (_ : list gstr) (s : unit) : unit * (gstr * option err) :=
  (s, ([], if bool_decide (n = s2l "Chdir") || bool_decide (n = s2l "jpyexec")
           then Some (s2l "exit status 1") else None)).

Definition msg_nostdin : Message := {| allow_stdin := Some false |}.
Definition msg_nocontent : Message := {| allow_stdin := None |}.

Definition w_readonly : World unit :=
  {| w_args := []; w_cellIsTest := false; w_cellIsWasm := false; w_goBuildFlags := [];
     w_autoGet := false; w_uniqueID := s2l "cell"; w_tempDir := s2l "/tmp/gonb";
     w_env := ∅; w_files := ∅; w_unwritable := {[s2l "ro.txt"]}; w_log := [];
     w_pubFail := false; w_hbReply := None; w_hbErr := None; w_clock := 0; w_ext := tt |}.

Local Ltac closed_forall := refine (bool_decide_unpack _ _); vm_compute; reflexivity.

Lemma splitCmd_unquoted_is_fields_witness :
  splitCmd (s2l "go  run\main.go ") = fields (s2l "go  run\main.go ")
  /\ fields (s2l "go  run\main.go ") = [s2l "go"; s2l "run\main.go"].
Proof.
  split; [|reflexivity].
  apply splitCmd_unquoted_is_fields. closed_forall.
Defined.

Lemma splitCmd_quoted_part_witness :
  splitCmd (quoted (s2l "a  b")) = [s2l "a  b"]
  /\ splitCmd (c_quote :: s2l "a  b") = [s2l "a  b"]
  /\ splitCmd (c_quote :: s2l "a  b" ++ [c_backslash]) = [s2l "a  b"].
Proof. apply splitCmd_quoted_part. closed_forall. Defined.

Lemma skip_spaces_never_empty_witness :
  exists c r', s2l "ls" = c :: r' /\ c <> c_space.
Proof. apply (skip_spaces_never_empty (s2l "  ls")). reflexivity. Defined.

Lemma args_directive_sets_args_witness :
  exists w', execInternal unit ext0 id [] [] msg0 (s2l "test -v x") emptyStatus w0
               = Ok (emptyStatus, None) w'
    /\ w_args w' = [s2l "-v"; s2l "x"]
    /\ w_cellIsTest w' = w_cellIsTest w0 || bool_decide (s2l "test" = s2l "test")
    /\ w_cellIsWasm w' = w_cellIsWasm w0 /\ w_goBuildFlags w' = w_goBuildFlags w0
    /\ w_autoGet w' = w_autoGet w0 /\ w_env w' = w_env w0 /\ w_files w' = w_files w0
    /\ w_log w' = w_log w0.
Proof.
  eapply args_directive_sets_args; [reflexivity|].
  apply list_elem_of_In. cbn. right. right. right. left. reflexivity.
Defined.

Lemma wasm_rejects_parameters_witness :
  execInternal unit ext0 id [] [] msg0 (s2l "wasm now") emptyStatus w0
  = Ok (emptyStatus, Some (s2l "`%wasm` takes no extra parameters.")) w0.
Proof. eapply wasm_rejects_parameters. reflexivity. Defined.

Lemma wasm_marks_cell_before_subdir_witness :
  exists w', execInternal unit ext0 id [] [] msg0 (s2l "wasm") emptyStatus w0
             = Ok (emptyStatus, option_map (wrap (s2l "failed to prepare `%wasm`")) None) w'
    /\ w_cellIsWasm w' = true
    /\ w_log w' = w_log w0 ++ [EvExt (s2l "MakeWasmSubdir") []; EvExt (s2l "UniqueId") []].
Proof. eapply (wasm_marks_cell_before_subdir unit ext0 id [] [] msg0 (s2l "wasm") emptyStatus w0 tt []); reflexivity. Defined.

Lemma goflags_sets_nonempty_flags_witness :
  exists w', execInternal unit ext0 id [] [] msg0 (s2l "goflags -race " ++ quoted []) emptyStatus w0
             = Ok (emptyStatus, None) w'
    /\ w_goBuildFlags w' = [s2l "-race"] /\ w_args w' = w_args w0
    /\ w_log w' = w_log w0 ++ [EvStream StreamStdout (s2l "%goflags=" ++ fmt_q_list id [s2l "-race"] ++ [c_nl])].
Proof. exact (goflags_sets_nonempty_flags unit ext0 id [] [] msg0 (s2l "goflags -race " ++ quoted [])
                [s2l "-race"; []] emptyStatus w0 eq_refl). Defined.

Lemma reset_rejects_other_parameters_witness :
  execInternal unit ext0 id [] [] msg0 (s2l "reset all") emptyStatus w0
  = Ok (emptyStatus, Some msg_reset_usage) w0.
Proof. eapply reset_rejects_other_parameters; [reflexivity|discriminate|discriminate]. Defined.

Lemma reset_calls_GoModInit_witness :
  exists w', execInternal unit ext0 id [] [] msg0 (s2l "reset go.mod") emptyStatus w0
             = Ok (emptyStatus, (ext0 (s2l "GoModInit") [] (w_ext w0)).2.2) w'
    /\ w_log w' = w_log w0 ++ [] ++ [EvExt (s2l "GoModInit") []].
Proof. exact (reset_calls_GoModInit unit ext0 id [] [] msg0 (s2l "reset go.mod") [s2l "go.mod"] emptyStatus w0 eq_refl (or_intror eq_refl)). Defined.

Lemma cd_rejects_two_arguments_witness :
  execInternal unit ext0 id [] [] msg0 (s2l "cd a b") emptyStatus w0
  = Ok (emptyStatus, Some (s2l "`%cd [<directory>]`: it takes none or one argument, but "
                           ++ fmt_d 2 ++ s2l " were given")) w0.
Proof. exact (cd_rejects_two_arguments unit ext0 id [] [] msg0 (s2l "cd a b") (s2l "a") (s2l "b") []
                emptyStatus w0 eq_refl). Defined.

Lemma cd_sets_gonb_dir_witness :
  exists w', execInternal unit ext0 id [] (s2l "GONB_DIR") msg0 (s2l "cd /tmp") emptyStatus w0
             = Ok (emptyStatus, None) w'
    /\ w_env w' = <[s2l "GONB_DIR" := []]> (w_env w0)
    /\ w_log w' = w_log w0 ++ [EvExt (s2l "Chdir") [s2l "/tmp"]; EvExt (s2l "Getwd") [];
                               EvStream StreamStdout (s2l "Changed directory to " ++ id [] ++ [c_nl])].
Proof.
  apply (cd_sets_gonb_dir unit ext0 id [] (s2l "GONB_DIR") msg0 (s2l "cd /tmp") (s2l "/tmp")
           emptyStatus w0 tt [] tt [] None).
  - reflexivity.
  - reflexivity.
  - reflexivity.
  - discriminate.
  - closed_forall.
  - apply not_elem_of_nil.
Defined.

Lemma cd_failure_is_returned_witness :
  exists w', execInternal unit ext_fail id [] [] msg0 (s2l "cd /none") emptyStatus w0
             = Ok (emptyStatus, Some (wrap (s2l "`%cd " ++ id (s2l "/none") ++ s2l "` failed")
                                          (s2l "exit status 1"))) w'
    /\ w_env w' = w_env w0 /\ w_log w' = w_log w0 ++ [EvExt (s2l "Chdir") [s2l "/none"]].
Proof.
  apply (cd_failure_is_returned unit ext_fail id [] [] msg0 (s2l "cd /none") (s2l "/none")
           emptyStatus w0 tt []); reflexivity.
Defined.

Lemma env_assignment_cut_at_first_eq_witness :
  exists w', execInternal unit ext0 id [] [] msg0 (s2l "env " ++ s2l "KEY" ++ [c_eq] ++ s2l "a=b")
               emptyStatus w0 = Ok (emptyStatus, None) w'
    /\ w_env w' = <[s2l "KEY" := s2l "a=b"]> (w_env w0)
    /\ w_log w' = w_log w0 ++ [EvStream StreamStdout
                                 (s2l "Set: " ++ s2l "KEY" ++ [c_eq] ++ id (s2l "a=b") ++ [c_nl])].
Proof.
  apply env_assignment_cut_at_first_eq.
  - cbn. lia.
  - closed_forall.
  - closed_forall.
Defined.

Lemma env_usage_error_witness :
  execInternal unit ext0 id [] [] msg0 (s2l "env KEY") emptyStatus w0
  = Ok (emptyStatus, Some (msg_env_usage 1)) w0.
Proof.
  apply (env_usage_error unit ext0 id [] [] msg0 _ [s2l "KEY"] emptyStatus w0).
  - reflexivity.
  - discriminate.
  - intros a i Ha Hi. injection Ha as <-. discriminate.
Defined.

Lemma env_refused_by_setenv_witness :
  execInternal unit ext0 id [] [] msg0 (s2l "env " ++ quoted [] ++ s2l " x") emptyStatus w0
  = Ok (emptyStatus, Some (wrap (s2l "`%env " ++ id [] ++ [c_space] ++ id (s2l "x") ++ s2l "` failed")
                                err_einval)) w0.
Proof.
  apply env_refused_by_setenv.
  - reflexivity.
  - left. reflexivity.
Defined.

Lemma input_directive_accepted_once_without_stdin_witness :
  execInternal unit ext0 id [] [] msg_nostdin (s2l "with_inputs") emptyStatus w0
    = Ok ({| withInputs := true; withPassword := false |}, None) w0
  /\ execInternal unit ext0 id [] [] msg_nostdin (s2l "with_password")
       {| withInputs := true; withPassword := false |} w0
     = Ok ({| withInputs := true; withPassword := false |},
           Some (msg_no_input (s2l "with_password"))) w0
  /\ execInternal unit ext0 id [] [] msg_nostdin (s2l "with_password") emptyStatus w0
     = Ok ({| withInputs := false; withPassword := true |}, None) w0
  /\ execInternal unit ext0 id [] [] msg_nostdin (s2l "with_inputs")
       {| withInputs := false; withPassword := true |} w0
     = Ok ({| withInputs := false; withPassword := true |},
           Some (msg_no_input (s2l "with_inputs"))) w0.
Proof.
  exact (input_directive_accepted_once_without_stdin unit ext0 id [] [] msg_nostdin
           (s2l "with_inputs") (s2l "with_password") [] [] w0 eq_refl eq_refl eq_refl).
Defined.

Lemma input_directive_panics_without_allow_stdin_witness :
  execInternal unit ext0 id [] [] msg_nocontent (s2l "with_password") emptyStatus w0 = Panic.
Proof.
  apply (input_directive_panics_without_allow_stdin unit ext0 id [] [] msg_nocontent
           (s2l "with_password") (s2l "with_password") []).
  - reflexivity.
  - reflexivity.
  - right. reflexivity.
Defined.

Lemma autoget_switch_witness :
  exists w', execInternal unit ext0 id [] [] msg0 (s2l "noautoget x") emptyStatus w0
               = Ok (emptyStatus, None) w'
    /\ w_autoGet w' = bool_decide (s2l "noautoget" = s2l "autoget")
    /\ w_args w' = w_args w0 /\ w_cellIsTest w' = w_cellIsTest w0
    /\ w_cellIsWasm w' = w_cellIsWasm w0 /\ w_goBuildFlags w' = w_goBuildFlags w0
    /\ w_log w' = w_log w0 /\ w_env w' = w_env w0 /\ w_files w' = w_files w0.
Proof.
  apply (autoget_switch unit ext0 id [] [] msg0 _ (s2l "noautoget") [s2l "x"]).
  - reflexivity.
  - right. reflexivity.
Defined.


Lemma writefile_open_failure_witness :
  execWriteFile unit [s2l "ro.txt"] (s2l "hi") w_readonly
  = Ok (Some (err_open (default (w_uniqueID w_readonly ++ s2l ".out") (Some (s2l "ro.txt"))))) w_readonly.
Proof.
  apply (writefile_open_failure unit [s2l "ro.txt"] (s2l "hi") false (Some (s2l "ro.txt")) w_readonly).
  - reflexivity.
  - cbn. apply elem_of_singleton. reflexivity.
Defined.


Definition lines_fail_directive : list gstr := [s2l "%wasm now"; s2l "!ls"].

Lemma Parse_stops_at_failing_directive_witness :
  parse_loop unit ext0 id [] [] 2 msg0 true lines_fail_directive 0 emptyStatus None ∅ w0
  = Ok ({[0]} ∪ ∅, Some (s2l "`%wasm` takes no extra parameters.")) w0.
Proof.
  apply (Parse_stops_at_failing_directive unit ext0 id [] [] msg0 lines_fail_directive 0
           (s2l "%wasm now") ∅ (s2l "wasm now") ({[0]} ∪ ∅) (s2l "wasm now") (s2l "wasm")
           [s2l "now"] emptyStatus None 1 w0 emptyStatus).
  - set_solver.
  - reflexivity.
  - reflexivity.
  - reflexivity.
  - reflexivity.
  - reflexivity.
  - discriminate.
  - reflexivity.
Defined.

Definition lines_fail_shell : list gstr := [s2l "!false"; s2l "%args"].

Lemma Parse_stops_at_failing_shell_witness :
  exists w', parse_loop unit ext_fail id [] [] 2 msg0 true lines_fail_shell 0 emptyStatus None ∅ w0
             = Ok ({[0]} ∪ ∅, Some (s2l "exit status 1")) w'.
Proof.
  eexists.
  eapply (Parse_stops_at_failing_shell unit ext_fail id [] [] msg0 lines_fail_shell 0
            (s2l "!false") ∅ (s2l "false") ({[0]} ∪ ∅) (s2l "false") emptyStatus None 1 w0 emptyStatus).
  - set_solver.
  - reflexivity.
  - reflexivity.
  - reflexivity.
  - reflexivity.
  - reflexivity.
Defined.

(** Collaborators where [AutoTrack] fails. *)
Definition ext_autotrack_fail (n : gstr) (_ : list gstr) (s : unit) : unit * (gstr * option err) :=
  (s, ([], if bool_decide (n = s2l "AutoTrack") then Some (s2l "gopls not found") else None)).

Definition lines_shell_ok : list gstr := [s2l "!ls"; s2l "x"].

Lemma Parse_autotrack_after_shell_witness :
  exists w2, Parse unit ext_autotrack_fail id [] [] msg0 true lines_shell_ok ∅ w0
             = Ok ({[0]} ∪ ∅, Some (s2l "gopls not found")) w2.
Proof.
  unfold Parse. cbn [length].
  eassert (Hsh : execShell unit ext_autotrack_fail (s2l "ls") emptyStatus w0
                 = Ok (emptyStatus, None) _); [reflexivity|].
  lazymatch type of Hsh with
  | _ = Ok _ ?w1 =>
      destruct (Parse_autotrack_after_shell unit ext_autotrack_fail id [] [] msg0 lines_shell_ok 0
                  (s2l "!ls") ∅ (s2l "ls") ({[0]} ∪ ∅) (s2l "ls") emptyStatus None 1 w0
                  emptyStatus w1)
        as [w2 [H1 [H2 H3]]];
      [set_solver | reflexivity | reflexivity | reflexivity | reflexivity | exact Hsh |];
      exists w2; apply H3; intros j Hj; assert (j = 1) as -> by lia; right; reflexivity
  end.
Defined.

Definition lines_used : list gstr := [s2l "%args a \"; s2l "b"; s2l "x := 1"].

Lemma Parse_used_lines_bounded_witness :
  exists used' e w',
    Parse unit ext0 id [] [] msg0 true lines_used ∅ w0 = Ok (used', e) w'
    /\ ∅ ⊆ used' /\ forall i, i ∈ used' -> i ∈ (∅ : gset nat) \/ i < length lines_used.
Proof.
  destruct (Parse unit ext0 id [] [] msg0 true lines_used ∅ w0) as [|[used' e] w'] eqn:H.
  - vm_compute in H. discriminate.
  - exists used', e, w'. split; [reflexivity|].
    exact (Parse_used_lines_bounded unit ext0 id [] [] msg0 true lines_used ∅ w0 used' e w' H).
Defined.

Definition lines_plain : list gstr := [s2l "x := 1"; s2l "%"; []; s2l "fmt.Println(x)"].

Lemma Parse_without_commands_is_identity_witness :
  Parse unit ext0 id [] [] msg0 true lines_plain ∅ w0 = Ok (∅, None) w0.
Proof.
  apply Parse_without_commands_is_identity.
  intros j l Hl. destruct j as [|[|[|[|j]]]]; cbn in Hl; try (injection Hl as <-; reflexivity).
  discriminate.
Defined.

Definition lines_tab : list gstr := [s2l "%args x"; c_percent :: replicate 1 c_space ++ replicate 2 c_tab].

Lemma Parse_panics_on_tab_only_directive_witness :
  Parse unit ext0 id [] [] msg0 true lines_tab ∅ w0 = Panic.
Proof.
  after_args_line lines_tab ltac:(fun st1 w1 =>
    apply (Parse_panics_on_tab_only_directive unit ext0 id [] [] msg0 lines_tab ({[0]} ∪ ∅) 1 1 2
             st1 None 0 w1);
    [lia | reflexivity | set_solver]).
Defined.
